(** * SD3 model adapter (helpers/models/sd3/model.py): a shallow embedding

    The development follows the Python module:
    - [Py]: exceptions, the state-and-exception monad, logging records;
    - [Cfg], [Validator]: the run configuration and [check_user_config];
    - [Torch]: tensors as a shape and row-major elements, with the torch
      operations the module calls;
    - [IEEE]: the floating-point elements of a tensor and their casts;
    - [Encoder]: the two prompt helpers, [_encode_prompts] and the
      formatters of the stored embedding;
    - [Router]: [load_lora_weights] over the caller's list of sub-models.
    The first half of the file holds the definitions, the second half the
    lemmas and theorems about them. *)

From Stdlib Require Import SpecFloat.
From Stdlib Require Import ZArith String Ascii DecimalString Bool Lia List Permutation.
Import ListNotations.

Local Open Scope string_scope.
Local Open Scope list_scope.

(* ================================================================== *)
(** * Part I: definitions *)
(* ================================================================== *)

(** ** Python runtime: exceptions, state, logging *)

Module Py.

(** The exceptions the module can raise, with their payload. *)
Inductive exn : Type :=
| ValueError (msg : string)
| NameError (name : string)
| AttributeError (name : string)
| IndexError
| TypeError
| RuntimeError
| OutOfFuel.  (* not a Python exception: a loop of the model cut short *)

Inductive result (X : Type) : Type :=
| Ok (x : X)
| Raise (e : exn).
Arguments Ok {X} x.
Arguments Raise {X} e.

(** A computation over a mutable world [S]: Python keeps every mutation
    made before an exception, so the world is returned in both cases. *)
Definition M (S X : Type) : Type := S -> result X * S.

Definition ret {S X} (x : X) : M S X := fun s => (Ok x, s).
Definition raise {S X} (e : exn) : M S X := fun s => (Raise e, s).
Definition bind {S X Y} (m : M S X) (k : X -> M S Y) : M S Y :=
  fun s => match m s with
           | (Ok x, s') => k x s'
           | (Raise e, s') => (Raise e, s')
           end.
Definition get {S} : M S S := fun s => (Ok s, s).
Definition modify {S} (f : S -> S) : M S unit := fun s => (Ok tt, f s).
Definition lift {S X} (r : result X) : M S X := fun s => (r, s).

(** The pure fragment: exceptions without state. *)
Definition rbind {X Y} (r : result X) (k : X -> result Y) : result Y :=
  match r with Ok x => k x | Raise e => Raise e end.

(** [logging] levels and records.  A record keeps the level, the source
    line of the call (LogRecord.lineno) and the formatted message. *)
Inductive level : Type := DEBUG | INFO | WARNING | ERROR.

Record LogRecord : Type := mkRecord
  { levelno : level; lineno : nat; message : string }.

Class Logging (S : Type) : Type := { emit : LogRecord -> S -> S }.

Definition logger_call {S} `{Logging S} (lv : level) (line : nat) (msg : string)
  : M S unit := modify (emit (mkRecord lv line msg)).

Definition is_warning (r : LogRecord) : bool :=
  match levelno r with WARNING => true | _ => false end.

(** Records whose call site lies between two source lines (inclusive). *)
Definition from_lines (lo hi : nat) (r : LogRecord) : bool :=
  (lo <=? lineno r)%nat && (lineno r <=? hi)%nat.

(** [str(int)] and the line feed of the f-strings. *)
Definition str_int (z : Z) : string := NilZero.string_of_int (Z.to_int z).
Definition LF : string := String (ascii_of_nat 10) EmptyString.

(** [str(x)] for a value that is a string or [None]. *)
Definition str_opt (o : option string) : string :=
  match o with Some s => s | None => "None" end.

End Py.

Import Py.

Declare Scope py_scope.
Delimit Scope py_scope with py.
Notation "x <- m ;; k" := (bind m (fun x => k))
  (at level 61, m at next level, right associativity) : py_scope.
Notation "m ;; k" := (bind m (fun _ => k))
  (at level 61, right associativity) : py_scope.
Notation "x <-? r ;; k" := (rbind r (fun x => k))
  (at level 61, r at next level, right associativity) : py_scope.
Notation "' p <-? r ;; k" := (rbind r (fun p => k))
  (at level 61, p pattern, r at next level, right associativity) : py_scope.

(** ** The run configuration ([self.config]) *)

Module Cfg.

Record Config : Type := mkConfig
  { base_model_precision : string;
    tokenizer_max_length : option Z;
    i_know_what_i_am_doing : bool;
    pretrained_vae_model_name_or_path : option string;
    disable_compel : bool;
    aspect_bucket_alignment : Z;
    sd3_t5_uncond_behaviour : option string;
    sd3_clip_uncond_behaviour : option string;
    t5_padding : option string }.

(** Attribute assignments [self.config.<field> = v]. *)
Definition set_tokenizer_max_length (v : option Z) (c : Config) : Config :=
  mkConfig (base_model_precision c) v (i_know_what_i_am_doing c)
           (pretrained_vae_model_name_or_path c) (disable_compel c)
           (aspect_bucket_alignment c) (sd3_t5_uncond_behaviour c)
           (sd3_clip_uncond_behaviour c) (t5_padding c).

Definition set_pretrained_vae_model_name_or_path (v : option string) (c : Config)
  : Config :=
  mkConfig (base_model_precision c) (tokenizer_max_length c)
           (i_know_what_i_am_doing c) v (disable_compel c)
           (aspect_bucket_alignment c) (sd3_t5_uncond_behaviour c)
           (sd3_clip_uncond_behaviour c) (t5_padding c).

Definition set_disable_compel (v : bool) (c : Config) : Config :=
  mkConfig (base_model_precision c) (tokenizer_max_length c)
           (i_know_what_i_am_doing c) (pretrained_vae_model_name_or_path c) v
           (aspect_bucket_alignment c) (sd3_t5_uncond_behaviour c)
           (sd3_clip_uncond_behaviour c) (t5_padding c).

Definition set_aspect_bucket_alignment (v : Z) (c : Config) : Config :=
  mkConfig (base_model_precision c) (tokenizer_max_length c)
           (i_know_what_i_am_doing c) (pretrained_vae_model_name_or_path c)
           (disable_compel c) v (sd3_t5_uncond_behaviour c)
           (sd3_clip_uncond_behaviour c) (t5_padding c).

Definition set_sd3_t5_uncond_behaviour (v : option string) (c : Config) : Config :=
  mkConfig (base_model_precision c) (tokenizer_max_length c)
           (i_know_what_i_am_doing c) (pretrained_vae_model_name_or_path c)
           (disable_compel c) (aspect_bucket_alignment c) v
           (sd3_clip_uncond_behaviour c) (t5_padding c).

End Cfg.

Import Cfg.

(** ** [SD3.check_user_config] (lines 318-353) *)

Module Validator.

(** The world of the validator: the configuration object it mutates and the
    records handed to the module logger. *)
Record World : Type := mkWorld { config : Config; records : list LogRecord }.

#[export] Instance World_logging : Logging World :=
  {| emit := fun r w => mkWorld (config w) (records w ++ [r]) |}.

Definition get_config : M World Config := fun w => (Ok (config w), w).
Definition set_config (f : Config -> Config) : M World unit :=
  modify (fun w => mkWorld (f (config w)) (records w)).

Definition t5_max_length : Z := 154.

Definition msg_fp8 : string :=
  "SD3 does not support fp8-quanto. Please use fp8-torchao or int8 precision level instead.".
Definition msg_clamp : string :=
  "Updating T5 XXL tokeniser max length to " ++ str_int t5_max_length ++ " for SD3.".
Definition msg_override_1 : string :=
  "-!- SD3 supports a max length of " ++ str_int t5_max_length
  ++ " tokens, but you have supplied `--i_know_what_i_am_doing`, so this limit will not be enforced. -!-".
Definition msg_override_2 : string :=
  "The model will begin to collapse after a short period of time, if the model you are continuing from has not been tuned beyond "
  ++ str_int t5_max_length ++ " tokens.".
Definition msg_alignment : string :=
  "MM-DiT requires an alignment value of 64px. Overriding the value of --aspect_bucket_alignment.".
Definition msg_uncond (c : Config) : string :=
  "SD3 embeds for unconditional captions: t5=" ++ str_opt (sd3_t5_uncond_behaviour c)
  ++ ", clip=" ++ str_opt (sd3_clip_uncond_behaviour c).

(** [x is None or int(x) > t5_max_length], for [x] an integer or [None]. *)
Definition exceeds_limit (x : option Z) : bool :=
  match x with
  | None => true
  | Some n => (t5_max_length <? n)%Z
  end.

Definition check_user_config : M World unit :=
  (c <- get_config ;;
   (if base_model_precision c =? "fp8-quanto"
    then raise (ValueError msg_fp8) else ret tt) ;;
   (if exceeds_limit (tokenizer_max_length c) then
      if negb (i_know_what_i_am_doing c) then
        logger_call WARNING 329 msg_clamp ;;
        set_config (set_tokenizer_max_length (Some t5_max_length))
      else
        logger_call WARNING 334 msg_override_1 ;;
        logger_call WARNING 337 msg_override_2
    else ret tt) ;;
   set_config (set_pretrained_vae_model_name_or_path None) ;;
   set_config (set_disable_compel true) ;;
   c <- get_config ;;
   (if negb (aspect_bucket_alignment c =? 64)%Z then
      logger_call WARNING 345 msg_alignment ;;
      set_config (set_aspect_bucket_alignment 64%Z)
    else ret tt) ;;
   c <- get_config ;;
   (match sd3_t5_uncond_behaviour c with
    | None => set_config (set_sd3_t5_uncond_behaviour (sd3_clip_uncond_behaviour c))
    | Some _ => ret tt
    end) ;;
   c <- get_config ;;
   logger_call INFO 351 (msg_uncond c))%py.

(** Running the validator on a configuration with an empty log. *)
Definition run (c : Config) : result unit * World :=
  check_user_config (mkWorld c []).

(** Records of the token-length rule: calls on lines 326-339. *)
Definition length_related : LogRecord -> bool := from_lines 326 339.

(** A configuration used to exercise the validator. *)
Definition sample_config (len : option Z) (flag : bool) (align : Z) : Config :=
  mkConfig "bf16" len flag (Some "madebyollin/sdxl-vae-fp16-fix") false align
           None (Some "empty_string") (Some "unmodified").

End Validator.

(** ** Tensors ([torch.Tensor]) *)

Module Torch.

(** A tensor is its shape and its elements in row-major order, as a
    contiguous torch tensor stores them. *)
Record Tensor (A : Type) : Type := mkTensor { shape : list nat; data : list A }.
Arguments mkTensor {A} shape data.
Arguments shape {A} t.
Arguments data {A} t.

Inductive dtype : Type := float16 | bfloat16 | float32.

(** What the module needs of the element type: the zero used for padding,
    the product, the promotion of an integer mask entry and the precision
    cast of [Tensor.to(dtype=...)]. *)
Class Scalar (A : Type) : Type :=
  { zero : A;
    mul : A -> A -> A;
    of_int : Z -> A;
    cast : dtype -> A -> A }.

(** The product of an element with the mask entry 0, as floating-point
    arithmetic has it: a zero (of either sign) for a finite element, a NaN
    for an infinite or NaN one.  The three tests classify an element. *)
Class MaskArith (A : Type) `{Scalar A} : Type :=
  { is_finite : A -> bool;
    is_zero : A -> bool;
    is_nan : A -> bool;
    is_zero_zero : is_zero zero = true;
    is_zero_finite : forall x : A, is_zero x = true -> is_finite x = true;
    is_nan_not_finite : forall x : A, is_nan x = true -> is_finite x = false;
    mul_of_int_0_finite :
      forall x : A, is_finite x = true -> is_zero (mul x (of_int 0%Z)) = true;
    mul_of_int_0_not_finite :
      forall x : A, is_finite x = false -> is_nan (mul x (of_int 0%Z)) = true }.

Definition numel (s : list nat) : nat := fold_right Nat.mul 1%nat s.

Definition contiguous {A} (t : Tensor A) : Prop := length (data t) = numel (shape t).

Fixpoint shape_eqb (s t : list nat) : bool :=
  match s, t with
  | [], [] => true
  | x :: s', y :: t' => (x =? y)%nat && shape_eqb s' t'
  | _, _ => false
  end.

(** The first [n] consecutive blocks of [w] elements. *)
Fixpoint chunks {A} (n w : nat) (d : list A) : list (list A) :=
  match n with
  | O => []
  | S n' => firstn w d :: chunks n' w (skipn w d)
  end.

Fixpoint zip_with {X Y Z} (f : X -> Y -> Z) (xs : list X) (ys : list Y) : list Z :=
  match xs, ys with
  | x :: xs', y :: ys' => f x y :: zip_with f xs' ys'
  | _, _ => []
  end.

(** The rows of two blocks of elements put side by side: row [i] is row [i]
    of the first block followed by row [i] of the second. *)
Definition side_by_side {A} (n w1 w2 : nat) (d1 d2 : list A) : list A :=
  concat (zip_with (@app A) (chunks n w1 d1) (chunks n w2 d2)).

Fixpoint map_option {X Y} (f : X -> option Y) (l : list X) : option (list Y) :=
  match l with
  | [] => Some []
  | x :: l' =>
      match f x, map_option f l' with
      | Some y, Some ys => Some (y :: ys)
      | _, _ => None
      end
  end.

(** A dimension argument, possibly negative, as an index below [rank]. *)
Definition norm_dim (dim : Z) (rank : nat) : option nat :=
  let r := Z.of_nat rank in
  if ((0 <=? dim) && (dim <? r))%Z then Some (Z.to_nat dim)
  else if ((- r <=? dim) && (dim <? 0))%Z then Some (Z.to_nat (dim + r))
  else None.

(** [seq[i]] of a Python sequence, with negative indices. *)
Definition py_index {X} (l : list X) (i : Z) : result X :=
  match norm_dim i (length l) with
  | Some k => match nth_error l k with Some x => Ok x | None => Raise IndexError end
  | None => Raise IndexError
  end.

(** [a, b, c = t.shape] *)
Definition unpack3 (s : list nat) : result (nat * nat * nat) :=
  match s with
  | [a; b; c] => Ok (a, b, c)
  | _ => Raise (ValueError "unpack")
  end.

Section Ops.
Context {A : Type}.

(** [t.unsqueeze(dim)] *)
Definition unsqueeze (dim : Z) (t : Tensor A) : result (Tensor A) :=
  match norm_dim dim (S (length (shape t))) with
  | Some i => Ok (mkTensor (firstn i (shape t) ++ 1%nat :: skipn i (shape t)) (data t))
  | None => Raise IndexError
  end.

(** [t.squeeze(dim)]: the dimension is dropped when its size is 1 and kept
    otherwise; a 0-dimensional tensor accepts [dim] 0 and -1. *)
Definition squeeze (dim : Z) (t : Tensor A) : result (Tensor A) :=
  match shape t with
  | [] => if ((dim =? 0) || (dim =? -1))%Z then Ok t else Raise IndexError
  | _ :: _ =>
      match norm_dim dim (length (shape t)) with
      | Some i =>
          if (nth i (shape t) 0 =? 1)%nat
          then Ok (mkTensor (firstn i (shape t) ++ skipn (S i) (shape t)) (data t))
          else Ok t
      | None => Raise IndexError
      end
  end.

(** [t.shape[-1]] *)
Definition shape_last (t : Tensor A) : result nat := py_index (shape t) (-1)%Z.

(** Broadcasting of the elements from shape [src] to shape [tgt] of the same
    rank: a dimension is kept when the sizes agree and repeated when the
    source size is 1. *)
Fixpoint expand_data (src tgt : list nat) (d : list A) : option (list A) :=
  match src, tgt with
  | [], [] => Some d
  | s :: src', t :: tgt' =>
      match map_option (expand_data src' tgt') (chunks s (numel src') d) with
      | Some cs =>
          if (s =? t)%nat then Some (concat cs)
          else if (s =? 1)%nat then Some (concat (repeat (concat cs) t))
          else None
      | None => None
      end
  | _, _ => None
  end.

(** [t.expand(sizes)]: missing leading dimensions count as 1. *)
Definition expand (sizes : list nat) (t : Tensor A) : result (Tensor A) :=
  if (length (shape t) <=? length sizes)%nat then
    let src := repeat 1%nat (length sizes - length (shape t)) ++ shape t in
    match expand_data src sizes (data t) with
    | Some d => Ok (mkTensor sizes d)
    | None => Raise RuntimeError
    end
  else Raise RuntimeError.

(** [t.repeat(1, n, 1)] on a tensor of rank 3. *)
Definition repeat_1_n_1 (n : nat) (t : Tensor A) : result (Tensor A) :=
  match shape t with
  | [b; s; h] =>
      Ok (mkTensor [b; n * s; h]
            (concat (map (fun c => concat (repeat c n)) (chunks b (s * h) (data t)))))
  | _ => Raise RuntimeError
  end.

(** [t.view(b, s, -1)]: the last size is inferred; torch refuses the call
    when [b * s] is 0 or does not divide the number of elements. *)
Definition view_infer_last (b s : nat) (t : Tensor A) : result (Tensor A) :=
  let n := numel (shape t) in
  if (b * s =? 0)%nat then Raise RuntimeError
  else if (n mod (b * s) =? 0)%nat then Ok (mkTensor [b; s; n / (b * s)] (data t))
  else Raise RuntimeError.

(** [torch.cat([a, b], dim)]: every other dimension must agree. *)
Definition cat2 (dim : Z) (a b : Tensor A) : result (Tensor A) :=
  if (length (shape a) =? length (shape b))%nat then
    match norm_dim dim (length (shape a)) with
    | Some i =>
        let pre := firstn i (shape a) in
        let post := skipn (S i) (shape a) in
        let da := nth i (shape a) 0%nat in
        let db := nth i (shape b) 0%nat in
        if shape_eqb pre (firstn i (shape b)) && shape_eqb post (skipn (S i) (shape b))
        then Ok (mkTensor (pre ++ (da + db)%nat :: post)
                   (concat (zip_with (@app A)
                              (chunks (numel pre) (da * numel post) (data a))
                              (chunks (numel pre) (db * numel post) (data b)))))
        else Raise RuntimeError
    | None => Raise IndexError
    end
  else Raise RuntimeError.

Fixpoint cat (dim : Z) (ts : list (Tensor A)) : result (Tensor A) :=
  match ts with
  | [] => Raise RuntimeError
  | [t] => match norm_dim dim (length (shape t)) with
           | Some _ => Ok t
           | None => Raise IndexError
           end
  | t :: rest => (r <-? cat dim rest ;; cat2 dim t r)%py
  end.

Context `{Scalar A}.

(** [t.to(dtype=dt)] *)
Definition to_dtype (dt : dtype) (t : Tensor A) : Tensor A :=
  mkTensor (shape t) (map (cast dt) (data t)).

(** [torch.nn.functional.pad(t, (0, k))]: [k] zeros are appended to every
    row of the last dimension; a negative [k] trims the rows instead. *)
Definition pad_last (k : Z) (t : Tensor A) : result (Tensor A) :=
  match rev (shape t) with
  | [] => Raise RuntimeError
  | w :: rpre =>
      let w' := (Z.of_nat w + k)%Z in
      if (w' <? 0)%Z then Raise RuntimeError
      else
        Ok (mkTensor (rev rpre ++ [Z.to_nat w'])
              (concat (map (fun row => firstn (Z.to_nat w') row ++ repeat zero (Z.to_nat k))
                           (chunks (numel (rev rpre)) w (data t)))))
  end.

(** [a * m] for an integer tensor [m] of the shape of [a] (the mask has been
    expanded to that shape by the caller). *)
Definition mul_mask (a : Tensor A) (m : Tensor Z) : result (Tensor A) :=
  if shape_eqb (shape a) (shape m)
  then Ok (mkTensor (shape a) (zip_with (fun x k => mul x (of_int k)) (data a) (data m)))
  else Raise RuntimeError.

(** Element [(b, j, h)] of a tensor of rank 3. *)
Definition get3 (t : Tensor A) (b j h : nat) : option A :=
  match shape t with
  | [_; s; w] => nth_error (data t) ((b * s + j) * w + h)
  | _ => None
  end.

End Ops.

End Torch.

Import Torch.

(** ** Floating-point elements *)

Module IEEE.

(** The elements of a floating-point tensor, after the specification of
    binary floating-point numbers of the Standard Library.  An element is
    held as a binary32 number; a tensor of a half-precision dtype holds only
    the numbers that dtype represents. *)
Definition prec_of (dt : dtype) : Z :=
  match dt with float16 => 11%Z | bfloat16 => 8%Z | float32 => 24%Z end.

Definition emax_of (dt : dtype) : Z :=
  match dt with float16 => 16%Z | bfloat16 => 128%Z | float32 => 128%Z end.

(** Rounding to nearest, ties to even, into the format of [prec] bits of
    mantissa and exponents below [emax]; a number too large becomes an
    infinity. *)
Definition round_to (prec emax : Z) (x : spec_float) : spec_float :=
  match x with
  | S754_finite s m e => binary_round prec emax s m e
  | _ => x
  end.

(** [x.to(dtype=dt)]: rounded to [dt], and held as a binary32 number. *)
Definition float_cast (dt : dtype) (x : spec_float) : spec_float :=
  round_to 24 128 (round_to (prec_of dt) (emax_of dt) x).

(** The promotion of an integer (a mask entry) to a floating-point number. *)
Definition float_of_int (k : Z) : spec_float := binary_normalize 24 128 k 0 false.

Definition float_is_finite (x : spec_float) : bool :=
  match x with
  | S754_zero _ | S754_finite _ _ _ => true
  | S754_infinity _ | S754_nan => false
  end.

Definition float_is_zero (x : spec_float) : bool :=
  match x with S754_zero _ => true | _ => false end.

Definition float_is_nan (x : spec_float) : bool :=
  match x with S754_nan => true | _ => false end.

(** The padding value of [F.pad] is [+0.0]; the product is the binary32
    one, whose result on the mask entry 0 (a signed zero or a NaN) is the
    same in every dtype. *)
#[export] Instance float_scalar : Scalar spec_float :=
  {| zero := S754_zero false;
     mul := SFmul 24 128;
     of_int := float_of_int;
     cast := float_cast |}.

End IEEE.

Import IEEE.

(** ** Prompt encoding (lines 14-85 and 133-218) *)

Module Encoder.

(** The [prompt] argument of the two helpers: a string or a list of strings. *)
Inductive Prompt : Type :=
| PromptStr (s : string)
| PromptList (l : list string).

(** [[prompt] if isinstance(prompt, str) else prompt] *)
Definition as_list (prompt : Prompt) : list string :=
  match prompt with
  | PromptStr s => [s]
  | PromptList l => l
  end.

(** A tokenizer of the transformers library, as the module uses it: the ids
    of a prompt (special tokens included), the padding id and the length used
    when [max_length] is [None]. *)
Record Tokenizer : Type := mkTokenizer
  { encode : string -> list Z;
    pad_token_id : Z;
    model_max_length : nat }.

Record BatchEncoding : Type := mkBatch
  { input_ids : Tensor Z;
    attention_mask : Tensor Z }.

Definition effective_length (tk : Tokenizer) (max_length : option Z) : nat :=
  match max_length with
  | Some n => Z.to_nat n
  | None => model_max_length tk
  end.

(** The ids kept of one prompt under [truncation=True]. *)
Definition kept_ids (tk : Tokenizer) (L : nat) (p : string) : list Z :=
  firstn L (encode tk p).

(** The number of true (non-padded) tokens of a prompt. *)
Definition token_count (tk : Tokenizer) (L : nat) (p : string) : nat :=
  length (kept_ids tk L p).

(** [tokenizer(prompt, padding="max_length", max_length=..., truncation=True,
    return_tensors="pt")]: every row is cut to the length and padded on the
    right up to it; the mask is 1 on the kept ids and 0 on the padding. *)
Definition tokenizer_call (tk : Tokenizer) (prompt : list string)
    (max_length : option Z) : BatchEncoding :=
  let L := effective_length tk max_length in
  mkBatch
    (mkTensor [length prompt; L]
       (flat_map (fun p => kept_ids tk L p
                             ++ repeat (pad_token_id tk) (L - token_count tk L p))
                 prompt))
    (mkTensor [length prompt; L]
       (flat_map (fun p => repeat 1%Z (token_count tk L p)
                             ++ repeat 0%Z (L - token_count tk L p))
                 prompt)).

(** What a text encoder returns: [output[0]] and [output.hidden_states]. *)
Record ModelOutput (A : Type) : Type := mkOutput
  { first_output : Tensor A;
    hidden_states : option (list (Tensor A)) }.
Arguments mkOutput {A} first_output hidden_states.
Arguments first_output {A} m.
Arguments hidden_states {A} m.

(** A text encoder: its native precision and its forward pass on a batch of
    ids, with the [output_hidden_states] switch. *)
Record TextEncoder (A : Type) : Type := mkEncoder
  { enc_dtype : dtype;
    forward : Tensor Z -> bool -> ModelOutput A }.
Arguments mkEncoder {A} enc_dtype forward.
Arguments enc_dtype {A} t.
Arguments forward {A} t ids output_hidden_states.

(** The part of the model object the encoder reads. *)
Record SD3 (A : Type) : Type := mkSD3
  { tokenizers : list Tokenizer;
    text_encoders : list (TextEncoder A);
    config : Config }.
Arguments mkSD3 {A} tokenizers text_encoders config.
Arguments tokenizers {A} s.
Arguments text_encoders {A} s.
Arguments config {A} s.

(** The stored embedding and the pipeline keyword arguments: the two keys
    [prompt_embeds] and [pooled_prompt_embeds]. *)
Record TextEmbedding (A : Type) : Type := mkEmbedding
  { prompt_embeds : Tensor A;
    pooled_prompt_embeds : Tensor A }.
Arguments mkEmbedding {A} prompt_embeds pooled_prompt_embeds.
Arguments prompt_embeds {A} t.
Arguments pooled_prompt_embeds {A} t.

Record NegativeTextEmbedding (A : Type) : Type := mkNegative
  { negative_prompt_embeds : Tensor A;
    negative_pooled_prompt_embeds : Tensor A }.
Arguments mkNegative {A} negative_prompt_embeds negative_pooled_prompt_embeds.
Arguments negative_prompt_embeds {A} n.
Arguments negative_pooled_prompt_embeds {A} n.

Section Encode.
Context {A : Type} `{Scalar A}.

Definition _encode_sd3_prompt_with_t5
    (text_encoder : TextEncoder A) (tokenizer : Tokenizer) (prompt : Prompt)
    (num_images_per_prompt : nat) (zero_padding_tokens : bool)
    (max_sequence_length : option Z) : result (Tensor A) :=
  (let prompt := as_list prompt in
   let batch_size := length prompt in
   let text_inputs := tokenizer_call tokenizer prompt max_sequence_length in
   let text_input_ids := input_ids text_inputs in
   let prompt_embeds := first_output (forward text_encoder text_input_ids false) in
   let dtype := enc_dtype text_encoder in
   let prompt_embeds := to_dtype dtype prompt_embeds in
   '(_, seq_len, _) <-? unpack3 (shape prompt_embeds) ;;
   prompt_embeds <-? repeat_1_n_1 num_images_per_prompt prompt_embeds ;;
   prompt_embeds <-? view_infer_last (batch_size * num_images_per_prompt) seq_len
                       prompt_embeds ;;
   let attention_mask := attention_mask text_inputs in
   if zero_padding_tokens then
     m <-? unsqueeze (-1) attention_mask ;;
     m <-? expand (shape prompt_embeds) m ;;
     mul_mask prompt_embeds m
   else Ok prompt_embeds)%py.

Definition _encode_sd3_prompt_with_clip
    (text_encoder : TextEncoder A) (tokenizer : Tokenizer) (prompt : Prompt)
    (num_images_per_prompt : nat) (max_token_length : Z)
  : result (Tensor A * Tensor A) :=
  (let prompt := as_list prompt in
   let batch_size := length prompt in
   let text_inputs := tokenizer_call tokenizer prompt (Some max_token_length) in
   let text_input_ids := input_ids text_inputs in
   let output := forward text_encoder text_input_ids true in
   let pooled_prompt_embeds := first_output output in
   layers <-? match hidden_states output with
              | Some hs => Ok hs
              | None => Raise TypeError
              end ;;
   prompt_embeds <-? py_index layers (-2) ;;
   let prompt_embeds := to_dtype (enc_dtype text_encoder) prompt_embeds in
   '(_, seq_len, _) <-? unpack3 (shape prompt_embeds) ;;
   prompt_embeds <-? repeat_1_n_1 num_images_per_prompt prompt_embeds ;;
   prompt_embeds <-? view_infer_last (batch_size * num_images_per_prompt) seq_len
                       prompt_embeds ;;
   Ok (prompt_embeds, pooled_prompt_embeds))%py.

(** The loop of lines 186-195 over the zipped CLIP tokenizers and encoders,
    appending to the two lists. *)
Fixpoint clip_loop (pairs : list (Tokenizer * TextEncoder A)) (prompts : list string)
    (num_images_per_prompt : nat)
    (clip_prompt_embeds_list clip_pooled_prompt_embeds_list : list (Tensor A))
  : result (list (Tensor A) * list (Tensor A)) :=
  match pairs with
  | [] => Ok (clip_prompt_embeds_list, clip_pooled_prompt_embeds_list)
  | (tokenizer, text_encoder) :: rest =>
      (' (prompt_embeds, pooled_prompt_embeds) <-?
         _encode_sd3_prompt_with_clip text_encoder tokenizer (PromptList prompts)
           num_images_per_prompt 77%Z ;;
       clip_loop rest prompts num_images_per_prompt
         (clip_prompt_embeds_list ++ [prompt_embeds])
         (clip_pooled_prompt_embeds_list ++ [pooled_prompt_embeds]))%py
  end.

(** [True if self.config.t5_padding == "zero" else False] *)
Definition zero_padding_tokens_of (c : Config) : bool :=
  match t5_padding c with
  | Some s => (s =? "zero")%string
  | None => false
  end.


(** The T5 call of lines 202-210. *)
Definition t5_branch (self : SD3 A) (prompts : list string) : result (Tensor A) :=
  (text_encoder <-? py_index (text_encoders self) (-1) ;;
   tokenizer <-? py_index (tokenizers self) (-1) ;;
   _encode_sd3_prompt_with_t5 text_encoder tokenizer (PromptList prompts) 1
     (zero_padding_tokens_of (config self))
     (tokenizer_max_length (config self)))%py.

Definition _encode_prompts (self : SD3 A) (prompts : list string)
  : result (Tensor A * Tensor A) :=
  (let num_images_per_prompt := 1%nat in
   let clip_tokenizers := firstn 2 (tokenizers self) in
   let clip_text_encoders := firstn 2 (text_encoders self) in
   ' (clip_prompt_embeds_list, clip_pooled_prompt_embeds_list) <-?
     clip_loop (combine clip_tokenizers clip_text_encoders) prompts
       num_images_per_prompt [] [] ;;
   clip_prompt_embeds <-? cat (-1) clip_prompt_embeds_list ;;
   pooled_prompt_embeds <-? cat (-1) clip_pooled_prompt_embeds_list ;;
   t5_prompt_embed <-? t5_branch self prompts ;;
   t5_width <-? shape_last t5_prompt_embed ;;
   clip_width <-? shape_last clip_prompt_embeds ;;
   clip_prompt_embeds <-?
     pad_last (Z.of_nat t5_width - Z.of_nat clip_width) clip_prompt_embeds ;;
   prompt_embeds <-? cat (-2) [clip_prompt_embeds; t5_prompt_embed] ;;
   Ok (prompt_embeds, pooled_prompt_embeds))%py.

Definition _format_text_embedding (text_embedding : Tensor A * Tensor A)
  : result (TextEmbedding A) :=
  (let '(prompt_embeds, pooled_prompt_embeds) := text_embedding in
   pooled <-? squeeze 0 pooled_prompt_embeds ;;
   Ok (mkEmbedding prompt_embeds pooled))%py.

Definition convert_text_embed_for_pipeline (text_embedding : TextEmbedding A)
  : result (TextEmbedding A) :=
  (pe <-? unsqueeze 0 (prompt_embeds text_embedding) ;;
   pooled <-? unsqueeze 0 (pooled_prompt_embeds text_embedding) ;;
   Ok (mkEmbedding pe pooled))%py.

Definition convert_negative_text_embed_for_pipeline
    (text_embedding : TextEmbedding A) (prompt : string)
  : result (NegativeTextEmbedding A) :=
  (pe <-? unsqueeze 0 (prompt_embeds text_embedding) ;;
   pooled <-? unsqueeze 0 (pooled_prompt_embeds text_embedding) ;;
   Ok (mkNegative pe pooled))%py.

(** The contracts of the two kinds of encoder on a batch of ids of shape
    [B, S]: a CLIP encoder returns a pooled output of width [p] and at least
    two hidden-state layers, the second to last of width [w]; a T5 encoder
    returns a sequence output of width [h]. *)
Definition clip_contract (enc : TextEncoder A) (p w : nat) : Prop :=
  forall (ids : Tensor Z) (B S : nat),
    shape ids = [B; S] ->
    shape (first_output (forward enc ids true)) = [B; p] /\
    exists before layer final,
      hidden_states (forward enc ids true) = Some (before ++ [layer; final]) /\
      shape layer = [B; S; w].

Definition t5_contract (enc : TextEncoder A) (h : nat) : Prop :=
  forall (ids : Tensor Z) (B S : nat),
    shape ids = [B; S] -> contiguous ids ->
    shape (first_output (forward enc ids false)) = [B; S; h] /\
    contiguous (first_output (forward enc ids false)).

(** The pooled output of one CLIP encoder on the prompts (line 76). *)
Definition clip_pooled_output (enc : TextEncoder A) (tk : Tokenizer)
    (prompts : list string) : Tensor A :=
  first_output (forward enc (input_ids (tokenizer_call tk prompts (Some 77%Z))) true).

(** The raw output of the T5 encoder on the prompts (line 35). *)
Definition t5_raw_output (enc : TextEncoder A) (tk : Tokenizer)
    (prompts : list string) (max_length : option Z) : Tensor A :=
  first_output (forward enc (input_ids (tokenizer_call tk prompts max_length)) false).

(** [hidden_states[-2]] of one CLIP encoder on the prompts (line 77). *)
Definition clip_hidden_layer (enc : TextEncoder A) (tk : Tokenizer)
    (prompts : list string) : result (Tensor A) :=
  match hidden_states (forward enc (input_ids (tokenizer_call tk prompts (Some 77%Z))) true) with
  | Some layers => py_index layers (-2)
  | None => Raise TypeError
  end.

(** The encoder returns well-formed tensors on well-formed ids. *)
Definition clip_outputs_contiguous (enc : TextEncoder A) : Prop :=
  forall ids : Tensor Z, contiguous ids ->
    contiguous (first_output (forward enc ids true)) /\
    forall layers, hidden_states (forward enc ids true) = Some layers ->
                   Forall contiguous layers.

(** The model object after [check_user_config] has rewritten its
    configuration. *)
Definition validated (self : SD3 A) : SD3 A :=
  mkSD3 (tokenizers self) (text_encoders self)
        (Validator.config (snd (Validator.run (config self)))).

End Encode.

(** Small concrete encoders over integer elements, to run the code on. *)
#[export] Instance Z_scalar : Scalar Z :=
  {| zero := 0%Z; mul := Z.mul; of_int := fun k => k; cast := fun _ x => x |}.

Definition toy_tokenizer : Tokenizer :=
  mkTokenizer
    (fun p => map (fun c => Z.of_nat (nat_of_ascii c)) (list_ascii_of_string p) ++ [1%Z])
    0%Z 512.

Definition toy_layer (ids : Tensor Z) (w : nat) (offset : Z) : Tensor Z :=
  mkTensor (shape ids ++ [w])
    (flat_map (fun id => map (fun k => (id + offset + Z.of_nat k)%Z) (seq 0 w)) (data ids)).

Definition toy_clip (p w : nat) : TextEncoder Z :=
  mkEncoder float16
    (fun ids output_hidden_states =>
       mkOutput
         (mkTensor [nth 0 (shape ids) 0%nat; p]
            (flat_map (fun row => repeat (fold_right Z.add 0%Z row) p)
               (chunks (nth 0 (shape ids) 0%nat) (nth 1 (shape ids) 0%nat) (data ids))))
         (if output_hidden_states
          then Some [toy_layer ids w 0; toy_layer ids w 1; toy_layer ids w 2]
          else None)).

Definition toy_t5 (h : nat) : TextEncoder Z :=
  mkEncoder bfloat16 (fun ids _ => mkOutput (toy_layer ids h 7) None).

Definition toy_config (padding : option string) (len : option Z) : Config :=
  mkConfig "bf16" len false None true 64%Z None None padding.

Definition toy_sd3 (padding : option string) (len : option Z) : SD3 Z :=
  mkSD3 [toy_tokenizer; toy_tokenizer; toy_tokenizer]
        [toy_clip 2 2; toy_clip 3 3; toy_t5 6]
        (toy_config padding len).

(** Small concrete encoders over floating-point elements.  [value id k] is
    the element an encoder gives in column [k] for the token [id]. *)
Definition ieee_layer (ids : Tensor Z) (w : nat) (value : Z -> nat -> spec_float)
  : Tensor spec_float :=
  mkTensor (shape ids ++ [w])
    (flat_map (fun id => map (value id) (seq 0 w)) (data ids)).

Definition ieee_clip (p w : nat) : TextEncoder spec_float :=
  mkEncoder float16
    (fun ids output_hidden_states =>
       mkOutput
         (mkTensor [nth 0 (shape ids) 0%nat; p]
            (flat_map (fun row => repeat (float_of_int (fold_right Z.max 0%Z row)) p)
               (chunks (nth 0 (shape ids) 0%nat) (nth 1 (shape ids) 0%nat) (data ids))))
         (if output_hidden_states
          then Some [ieee_layer ids w (fun id _ => float_of_int id);
                     ieee_layer ids w (fun id k => float_of_int (id + Z.of_nat k));
                     ieee_layer ids w (fun id k => float_of_int (id - Z.of_nat k))]
          else None)).

Definition ieee_t5 (h : nat) (value : Z -> nat -> spec_float) : TextEncoder spec_float :=
  mkEncoder bfloat16 (fun ids _ => mkOutput (ieee_layer ids h value) None).

(** An encoder that overflows on the padding token (id 0): column 0 holds
    an infinity there and column [k], [k] positive, the negative number
    [- k]; on every other token column [k] holds [id + k]. *)
Definition overflowing (id : Z) (k : nat) : spec_float :=
  if (id =? 0)%Z
  then if (k =? 0)%nat then S754_infinity false else float_of_int (- Z.of_nat k)
  else float_of_int (id + Z.of_nat k).


Definition ieee_sd3 (value : Z -> nat -> spec_float) (padding : option string)
    (len : option Z) : SD3 spec_float :=
  mkSD3 [toy_tokenizer; toy_tokenizer; toy_tokenizer]
        [ieee_clip 2 2; ieee_clip 3 3; ieee_t5 6 value]
        (toy_config padding len).

End Encoder.

(** ** Adapter loading: [SD3.load_lora_weights] (lines 247-316) *)

Module Router.

(** [str.startswith] and [str.replace] (every occurrence, left to right). *)
Definition startswith (s pre : string) : bool := String.prefix pre s.

Fixpoint replace_from (old new : string) (skip : nat) (s : string) : string :=
  match s with
  | EmptyString => EmptyString
  | String c rest =>
      match skip with
      | S k => replace_from old new k rest
      | O =>
          if String.prefix old s
          then (new ++ replace_from old new (String.length old - 1) rest)%string
          else String c (replace_from old new 0 rest)
      end
  end.

Fixpoint interleave (new s : string) : string :=
  match s with
  | EmptyString => new
  | String c rest => (new ++ String c (interleave new rest))%string
  end.

Definition str_replace (s old new : string) : string :=
  match old with
  | EmptyString => interleave new s
  | _ => replace_from old new 0 s
  end.

(** [repr] of a list of strings. *)
Fixpoint repr_items (l : list string) : string :=
  match l with
  | [] => ""
  | [x] => "'" ++ x ++ "'"
  | x :: rest => "'" ++ x ++ "', " ++ repr_items rest
  end%string.

Definition repr_list (l : list string) : string := ("[" ++ repr_items l ++ "]")%string.

(** A Python class: its qualified name and the names of its proper
    ancestors ([__mro__] without the class itself). *)
Record PyClass : Type := mkClass { cls_name : string; cls_bases : list string }.

Definition issubclass (c d : PyClass) : bool :=
  (cls_name c =? cls_name d)%string || existsb (String.eqb (cls_name d)) (cls_bases c).

(** [str(cls)] as an f-string prints it. *)
Definition repr_class (c : PyClass) : string := ("<class '" ++ cls_name c ++ "'>")%string.

(** A sub-model: a module object, possibly inside distribution wrappers. *)
Inductive Model : Type :=
| Bare (oid : nat) (cls : PyClass)
| Wrapped (cls : PyClass) (inner : Model).

(** [model.__class__] and [type(model)] *)
Definition class_of (m : Model) : PyClass :=
  match m with
  | Bare _ c => c
  | Wrapped c _ => c
  end.

(** Modelled from the spec: [unwrap_model] is inherited from the base class
    (helpers/models/common.py), which is not part of the sources; the
    specification calls its result the distribution-wrapper-stripped model. *)
Fixpoint unwrap_model (m : Model) : Model :=
  match m with
  | Bare _ _ => m
  | Wrapped _ inner => unwrap_model inner
  end.

Definition isinstance (m : Model) (c : PyClass) : bool := issubclass (class_of m) c.

(** The names bound at module level: the imports of lines 1-9, [logger] and
    the three definitions of the module. *)
Definition module_globals : list string :=
  ["torch"; "os"; "logging";
   "ImageModelFoundation"; "PredictionTypes"; "PipelineTypes"; "ModelTypes";
   "T5TokenizerFast"; "T5EncoderModel"; "CLIPTokenizer"; "CLIPTextModelWithProjection";
   "SD3Transformer2DModel";
   "StableDiffusion3Pipeline"; "StableDiffusion3Img2ImgPipeline";
   "AutoencoderKL"; "convert_state_dict_to_diffusers"; "get_peft_model_state_dict";
   "_get_rank"; "logger";
   "_encode_sd3_prompt_with_t5"; "_encode_sd3_prompt_with_clip"; "SD3"]%string.

(** The module with the two missing names imported as well. *)
Definition repaired_globals : list string :=
  module_globals ++ ["convert_unet_state_dict_to_peft"; "set_peft_model_state_dict"]%string.

(** The three named slots of the classification. *)
Inductive Slot : Type := Denoiser | TextEncoderOne | TextEncoderTwo.

Record Slots : Type := mkSlots
  { transformer_ : option Model;
    denoiser : option Model;
    text_encoder_one_ : option Model;
    text_encoder_two_ : option Model }.

Definition no_slots : Slots := mkSlots None None None None.

Definition assign (s : Slot) (model : Model) (sl : Slots) : Slots :=
  match s with
  | Denoiser =>
      mkSlots (Some model) (Some model) (text_encoder_one_ sl) (text_encoder_two_ sl)
  | TextEncoderOne =>
      mkSlots (transformer_ sl) (denoiser sl) (Some model) (text_encoder_two_ sl)
  | TextEncoderTwo =>
      mkSlots (transformer_ sl) (denoiser sl) (text_encoder_one_ sl) (Some model)
  end.

Definition occupant (s : Slot) (sl : Slots) : option Model :=
  match s with
  | Denoiser => transformer_ sl
  | TextEncoderOne => text_encoder_one_ sl
  | TextEncoderTwo => text_encoder_two_ sl
  end.

Definition slot_eqb (a b : Slot) : bool :=
  match a, b with
  | Denoiser, Denoiser | TextEncoderOne, TextEncoderOne
  | TextEncoderTwo, TextEncoderTwo => true
  | _, _ => false
  end.

(** The report of the adapter-state setter. *)
Record IncompatibleKeys : Type := mkKeys
  { missing_keys : list string;
    unexpected_keys : option (list string) }.

(** The part of the model object that [load_lora_weights] reads.
    [trained_component] is the value of [self.get_trained_component()] and
    [MODEL_SUBFOLDER] the attribute read off [self.model]. *)
Record SD3 : Type := mkSD3
  { transformer : Model;
    text_encoders : list Model;
    trained_component : Model;
    MODEL_SUBFOLDER : string;
    train_text_encoder : bool }.

Section Loader.

(** Tensors of a checkpoint and the weights of the sub-models are opaque. *)
Variable T : Type.
Variable Store : Type.

(** A state dict: keys in insertion order, one entry per key. *)
Definition StateDict : Type := list (string * T).

Fixpoint dict_set (k : string) (v : T) (d : StateDict) : StateDict :=
  match d with
  | [] => [(k, v)]
  | (k', v') :: rest =>
      if (k' =? k)%string then (k, v) :: rest else (k', v') :: dict_set k v rest
  end.

(** The world of the loader: the caller's list of sub-models, which the
    loader mutates, the weights of the sub-models and the log. *)
Record World : Type := mkWorld
  { models : list Model;
    store : Store;
    records : list LogRecord }.

#[export] Instance World_logging : Logging World :=
  {| emit := fun r w => mkWorld (models w) (store w) (records w ++ [r]) |}.

(** The library functions the loader calls. *)
Record Externals : Type := mkExternals
  { lora_state_dict : string -> StateDict;
    convert_unet_state_dict_to_peft : StateDict -> StateDict;
    set_peft_model_state_dict :
      option Model -> StateDict -> string -> Store -> result (option IncompatibleKeys) * Store;
    _set_state_dict_into_text_encoder :
      StateDict -> string -> option Model -> Store -> result unit * Store }.

(** Reading a global name: [NameError] when the module does not bind it. *)
Definition load_global (G : list string) (name : string) : M World unit :=
  if existsb (String.eqb name) G then ret tt else raise (NameError name).

(** Running a library function on the weights. *)
Definition on_store {X} (f : Store -> result X * Store) : M World X :=
  fun w => let '(r, st) := f (store w) in (r, mkWorld (models w) st (records w)).

(** [models.pop()] *)
Definition pop : M World Model :=
  fun w => match rev (models w) with
           | [] => (Raise IndexError, w)
           | m :: rest => (Ok m, mkWorld (rev rest) (store w) (records w))
           end.

(** [self.text_encoders[i]] *)
Definition text_encoder_at (self : SD3) (i : nat) : result Model :=
  match nth_error (text_encoders self) i with
  | Some m => Ok m
  | None => Raise IndexError
  end.

Definition unexpected_save_model (self : SD3) (model : Model) : string :=
  ("unexpected save model: " ++ repr_class (class_of model)
   ++ LF ++ "unwrapped: " ++ repr_class (class_of (unwrap_model model))
   ++ LF ++ "unet: " ++ repr_class (class_of (unwrap_model (trained_component self))))%string.

(** The [if]/[elif] chain of lines 257-278: the slot of one entry. *)
Definition classify (self : SD3) (model : Model) : result Slot :=
  if isinstance (unwrap_model model) (class_of (unwrap_model (transformer self)))
  then Ok Denoiser
  else
    (te0 <-? text_encoder_at self 0 ;;
     if isinstance (unwrap_model model) (class_of (unwrap_model te0))
     then Ok TextEncoderOne
     else
       te1 <-? text_encoder_at self 1 ;;
       if isinstance (unwrap_model model) (class_of (unwrap_model te1))
       then Ok TextEncoderTwo
       else Raise (ValueError (unexpected_save_model self model)))%py.

(** The loop of lines 254-278.  Every turn pops one entry, so a fuel equal
    to the length of the list is never used up. *)
Fixpoint classify_loop (fuel : nat) (self : SD3) (sl : Slots) : M World Slots :=
  fun w =>
    match models w with
    | [] => (Ok sl, w)
    | _ :: _ =>
        match fuel with
        | O => (Raise OutOfFuel, w)
        | S fuel' =>
            (model <- pop ;;
             s <- lift (classify self model) ;;
             classify_loop fuel' self (assign s model sl))%py w
        end
    end.

Definition classify_roster (self : SD3) : M World Slots :=
  fun w => classify_loop (length (models w)) self no_slots w.

(** The same loop read as a pass over the entries in popping order: the
    outcome and the entries not popped yet. *)
Fixpoint drain (self : SD3) (popping : list Model) (sl : Slots)
  : result Slots * list Model :=
  match popping with
  | [] => (Ok sl, [])
  | model :: rest =>
      match classify self model with
      | Ok s => drain self rest (assign s model sl)
      | Raise e => (Raise e, rest)
      end
  end.

(** The dict comprehension of lines 283-287. *)
Fixpoint denoiser_slice (prefix : string) (items : StateDict) (acc : StateDict)
  : StateDict :=
  match items with
  | [] => acc
  | (k, v) :: rest =>
      if startswith k prefix
      then denoiser_slice prefix rest (dict_set (str_replace k prefix "") v acc)
      else denoiser_slice prefix rest acc
  end.

Definition unexpected_keys_warning (keys : list string) : string :=
  ("Loading adapter weights from state_dict led to unexpected keys not found in the model: "
   ++ " " ++ repr_list keys ++ ". ")%string.

(** Lines 280-316: the checkpoint is read, the slice of the denoiser is
    applied and, when the text encoders are trained too, the whole checkpoint
    is handed to the setter of each text encoder. *)
Definition apply_checkpoint (G : list string) (ext : Externals) (self : SD3)
    (input_dir : string) (sl : Slots) : M World unit :=
  (let key_to_replace := MODEL_SUBFOLDER self in
   let lora_state_dict := lora_state_dict ext input_dir in
   let denoiser_state_dict :=
     denoiser_slice (key_to_replace ++ ".") lora_state_dict [] in
   load_global G "convert_unet_state_dict_to_peft" ;;
   let denoiser_state_dict := convert_unet_state_dict_to_peft ext denoiser_state_dict in
   load_global G "set_peft_model_state_dict" ;;
   incompatible_keys <-
     on_store (set_peft_model_state_dict ext (denoiser sl) denoiser_state_dict "default") ;;
   match incompatible_keys with
   | Some report =>
       match unexpected_keys report with
       | Some (k :: ks) => logger_call WARNING 297 (unexpected_keys_warning (k :: ks))
       | _ => ret tt
       end
   | None => ret tt
   end ;;
   if train_text_encoder self then
     on_store (_set_state_dict_into_text_encoder ext lora_state_dict "text_encoder."
                 (text_encoder_one_ sl)) ;;
     on_store (_set_state_dict_into_text_encoder ext lora_state_dict "text_encoder_2."
                 (text_encoder_two_ sl))
   else ret tt)%py.

Definition load_lora_weights (G : list string) (ext : Externals) (self : SD3)
    (input_dir : string) : M World unit :=
  (sl <- classify_roster self ;; apply_checkpoint G ext self input_dir sl)%py.

(** An entry that one of the three branches of the chain accepts. *)
Definition classified (self : SD3) (model : Model) : Prop :=
  exists s, classify self model = Ok s.

(** [classify] sends the entry to slot [s]. *)
Definition lands_in (self : SD3) (s : Slot) (model : Model) : bool :=
  match classify self model with
  | Ok s' => slot_eqb s s'
  | Raise _ => false
  end.

(** An entry that none of the three reference sub-models recognises. *)
Definition matches_none (self : SD3) (model : Model) : Prop :=
  isinstance (unwrap_model model) (class_of (unwrap_model (transformer self))) = false /\
  forall te, In te (firstn 2 (text_encoders self)) ->
    isinstance (unwrap_model model) (class_of (unwrap_model te)) = false.

(** A step that leaves the caller's list of sub-models as it found it. *)
Definition keeps_models {X} (step : M World X) : Prop :=
  forall w, models (snd (step w)) = models w.

(** [needle] occurs in [text]. *)
Definition occurs_in (needle text : string) : Prop :=
  exists before after, text = (before ++ needle ++ after)%string.

End Loader.

Arguments mkWorld {Store} models store records.
Arguments models {Store} w.
Arguments store {Store} w.
Arguments records {Store} w.

(** Concrete sub-models and a checkpoint to run the loader on. *)
Definition SD3Transformer2DModel : PyClass :=
  mkClass "helpers.models.sd3.transformer.SD3Transformer2DModel"
          ["diffusers.models.modeling_utils.ModelMixin"; "torch.nn.modules.module.Module"; "object"].
Definition CLIPTextModelWithProjection : PyClass :=
  mkClass "transformers.models.clip.modeling_clip.CLIPTextModelWithProjection"
          ["transformers.modeling_utils.PreTrainedModel"; "torch.nn.modules.module.Module"; "object"].
Definition AutoencoderKL : PyClass :=
  mkClass "diffusers.models.autoencoders.autoencoder_kl.AutoencoderKL"
          ["diffusers.models.modeling_utils.ModelMixin"; "torch.nn.modules.module.Module"; "object"].
Definition DistributedDataParallel : PyClass :=
  mkClass "torch.nn.parallel.distributed.DistributedDataParallel"
          ["torch.nn.modules.module.Module"; "object"].

Definition the_transformer : Model := Bare 1 SD3Transformer2DModel.
Definition clip_l : Model := Bare 2 CLIPTextModelWithProjection.
Definition clip_g : Model := Bare 3 CLIPTextModelWithProjection.
Definition the_vae : Model := Bare 4 AutoencoderKL.
Definition second_transformer : Model := Wrapped DistributedDataParallel (Bare 5 SD3Transformer2DModel).

Definition sample_sd3 : SD3 :=
  mkSD3 the_transformer [clip_l; clip_g] the_transformer "transformer" false.

(** The same model object before its text encoders are loaded. *)
Definition sd3_without_text_encoders : SD3 :=
  mkSD3 the_transformer [] the_transformer "transformer" false.

(** A store that lists the adapter slices applied so far, and library
    functions that append to it; the setter reports the key [stray] as
    unexpected when the slice has it. *)
Definition Applied : Type := list (option Model * string * list (string * nat)).

Definition sample_externals : Externals nat Applied :=
  mkExternals nat Applied
    (fun _ => [("transformer.transformer_blocks.0.attn.to_q.lora_A.weight", 10);
               ("text_encoder.text_model.encoder.layers.0.q_proj.lora_A.weight", 20);
               ("transformer.stray", 30)]%string)
    (fun d => d)
    (fun target d name st =>
       (Ok (Some (mkKeys [] (Some (filter (String.eqb "stray") (map fst d))))),
        st ++ [(target, name, d)]))
    (fun d prefix target st => (Ok tt, st ++ [(target, prefix, d)])).

End Router.

(* ================================================================== *)
(** * Part II: lemmas and theorems *)
(* ================================================================== *)

Module ValidatorFacts.
Import Validator.

Ltac run_validator :=
  unfold run, check_user_config, bind, get_config, set_config, modify,
    logger_call, ret, raise; simpl.

(** Every precision but fp8-quanto passes the validator. *)
Lemma run_accepts (c : Config) :
  (base_model_precision c =? "fp8-quanto") = false ->
  fst (run c) = Ok tt.
Proof.
  intros Hq. run_validator. rewrite Hq. simpl.
  destruct (exceeds_limit (tokenizer_max_length c)); simpl;
    [destruct (i_know_what_i_am_doing c); simpl|];
    destruct (aspect_bucket_alignment c =? 64)%Z; simpl;
    destruct (sd3_t5_uncond_behaviour c); reflexivity.
Qed.



(** C7. Whenever the validator returns, the custom autoencoder is cleared,
    Compel is disabled, the bucket alignment is 64 with the override logged
    exactly when the supplied value differed, and an unset T5 unconditional
    behaviour has taken the CLIP one (a set one is kept). *)
Theorem check_user_config_forced_settings (c : Config) :
  fst (run c) = Ok tt ->
  let w := snd (run c) in
  pretrained_vae_model_name_or_path (config w) = None /\
  disable_compel (config w) = true /\
  aspect_bucket_alignment (config w) = 64%Z /\
  filter (from_lines 344 348) (records w) =
    (if (aspect_bucket_alignment c =? 64)%Z then []
     else [mkRecord WARNING 345 msg_alignment]) /\
  (sd3_t5_uncond_behaviour c = None ->
     sd3_t5_uncond_behaviour (config w) = sd3_clip_uncond_behaviour c) /\
  (forall b, sd3_t5_uncond_behaviour c = Some b ->
     sd3_t5_uncond_behaviour (config w) = Some b) /\
  sd3_clip_uncond_behaviour (config w) = sd3_clip_uncond_behaviour c.
Proof.
  intros Hok w. subst w. revert Hok. run_validator.
  destruct (base_model_precision c =? "fp8-quanto"); simpl; [discriminate|].
  intros _.
  destruct (exceeds_limit (tokenizer_max_length c)); simpl;
    [destruct (i_know_what_i_am_doing c); simpl|];
    destruct (aspect_bucket_alignment c =? 64)%Z eqn:Ha; simpl;
    try apply Z.eqb_eq in Ha;
    destruct (sd3_t5_uncond_behaviour c) eqn:Ht; simpl;
    repeat split; try assumption; try reflexivity; try congruence.
Qed.

Lemma check_user_config_forced_settings_witness :
  aspect_bucket_alignment
    (config (snd (run (sample_config (Some 77%Z) false 32%Z)))) = 64%Z /\
  sd3_t5_uncond_behaviour
    (config (snd (run (sample_config (Some 77%Z) false 32%Z)))) = Some "empty_string".
Proof.
  pose proof (check_user_config_forced_settings
                (sample_config (Some 77%Z) false 32%Z) eq_refl) as H.
  simpl in H. destruct H as (_ & _ & Ha & _ & Ht & _).
  split; [exact Ha | exact (Ht eq_refl)].
Defined.

(** C10. A length that is an integer not above 154 is left as it is and the
    length rule logs nothing; an unset length with the override flag stays
    unset (154 is not substituted). *)
Theorem check_user_config_keeps_short_length (c : Config) :
  (base_model_precision c =? "fp8-quanto") = false ->
  let w := snd (run c) in
  (forall n : Z, tokenizer_max_length c = Some n -> (n <= 154)%Z ->
     tokenizer_max_length (config w) = Some n /\
     filter length_related (records w) = []) /\
  (tokenizer_max_length c = None -> i_know_what_i_am_doing c = true ->
     tokenizer_max_length (config w) = None).
Proof.
  intros Hq w. subst w. run_validator. rewrite Hq. simpl. split.
  - intros n Hn Hle. rewrite Hn. simpl.
    assert (Hlt : (t5_max_length <? n)%Z = false)
      by (apply Z.ltb_ge; unfold t5_max_length; lia).
    rewrite Hlt. simpl.
    destruct (aspect_bucket_alignment c =? 64)%Z; simpl;
      destruct (sd3_t5_uncond_behaviour c); simpl; split; reflexivity || assumption.
  - intros Hn Hflag. rewrite Hn, Hflag. simpl.
    destruct (aspect_bucket_alignment c =? 64)%Z; simpl;
      destruct (sd3_t5_uncond_behaviour c); simpl; reflexivity || assumption.
Qed.

Lemma check_user_config_keeps_short_length_witness :
  tokenizer_max_length (config (snd (run (sample_config (Some 120%Z) false 64%Z))))
    = Some 120%Z /\
  tokenizer_max_length (config (snd (run (sample_config None true 64%Z)))) = None.
Proof.
  split.
  - refine (proj1 (proj1 (check_user_config_keeps_short_length
              (sample_config (Some 120%Z) false 64%Z) eq_refl) 120%Z eq_refl _)).
    lia.
  - exact (proj2 (check_user_config_keeps_short_length
              (sample_config None true 64%Z) eq_refl) eq_refl eq_refl).
Defined.

(** X1. [fp8-quanto] is the one precision the validator refuses: the call
    raises the [ValueError] of line 323 before anything is written to the
    configuration or logged; every other precision is accepted. *)
Theorem check_user_config_rejects_only_fp8_quanto (c : Config) :
  (base_model_precision c = "fp8-quanto" ->
     run c = (Raise (ValueError msg_fp8), mkWorld c [])) /\
  (base_model_precision c <> "fp8-quanto" -> fst (run c) = Ok tt).
Proof.
  split.
  - intros Hq. unfold run, check_user_config, bind, get_config, raise. simpl.
    rewrite Hq. reflexivity.
  - intros Hq. apply run_accepts. now apply String.eqb_neq.
Qed.

(** X2. Without the override flag the validated T5 length is always an
    integer of at most 154: a supplied length of at most 154 is kept, and an
    unset or larger one becomes 154. *)
Theorem check_user_config_bounds_length (c : Config) :
  fst (run c) = Ok tt ->
  i_know_what_i_am_doing c = false ->
  exists n : Z,
    tokenizer_max_length (config (snd (run c))) = Some n /\ (n <= 154)%Z /\
    (tokenizer_max_length c = Some n \/
     (n = 154%Z /\ forall m, tokenizer_max_length c = Some m -> (154 < m)%Z)).
Proof.
  intros Hok Hflag. revert Hok. run_validator.
  destruct (base_model_precision c =? "fp8-quanto"); simpl; [discriminate|]. intros _.
  rewrite Hflag.
  destruct (tokenizer_max_length c) as [m|] eqn:Hm; simpl.
  - destruct (t5_max_length <? m)%Z eqn:E; simpl.
    + apply Z.ltb_lt in E. unfold t5_max_length in E.
      exists 154%Z.
      destruct (aspect_bucket_alignment c =? 64)%Z; simpl;
        destruct (sd3_t5_uncond_behaviour c); simpl;
        (split; [reflexivity|]; split; [lia|]; right; split; [reflexivity|];
         intros m' [= <-]; exact E).
    + apply Z.ltb_ge in E. unfold t5_max_length in E.
      exists m.
      destruct (aspect_bucket_alignment c =? 64)%Z; simpl;
        destruct (sd3_t5_uncond_behaviour c); simpl;
        (split; [exact Hm|]; split; [lia|]; now left).
  - exists 154%Z.
    destruct (aspect_bucket_alignment c =? 64)%Z; simpl;
      destruct (sd3_t5_uncond_behaviour c); simpl;
      (split; [reflexivity|]; split; [lia|]; right; split; [reflexivity|];
       intros m' Hm'; discriminate).
Qed.

(** X3. Validation is idempotent on the configuration: validating the
    validated configuration is accepted and changes nothing; the second call
    logs no clamp notice and no alignment override, only the two override
    warnings again when the flag keeps an oversized or unset length, and the
    closing info record. *)
Theorem check_user_config_idempotent (c : Config) :
  fst (run c) = Ok tt ->
  let c' := config (snd (run c)) in
  fst (run c') = Ok tt /\
  config (snd (run c')) = c' /\
  records (snd (run c'))
    = (if i_know_what_i_am_doing c && exceeds_limit (tokenizer_max_length c)
       then [mkRecord WARNING 334 msg_override_1; mkRecord WARNING 337 msg_override_2]
       else [])
      ++ [mkRecord INFO 351 (msg_uncond c')].
Proof.
  destruct c as [prec len flag vae compel align t5u clipu pad].
  unfold run, check_user_config, bind, get_config, set_config, modify,
    logger_call, ret, raise. simpl.
  destruct (prec =? "fp8-quanto") eqn:Hq; simpl; [discriminate|]. intros _.
  destruct flag; simpl.
  - destruct (exceeds_limit len) eqn:El; simpl;
      destruct (align =? 64)%Z eqn:Ha; simpl;
      destruct t5u as [b|]; simpl; rewrite ?Hq; simpl; rewrite ?El; simpl; rewrite ?Ha; simpl;
      try (destruct clipu; simpl); repeat split; reflexivity.
  - destruct len as [n|]; simpl;
      [destruct (t5_max_length <? n)%Z eqn:El; simpl|];
      destruct (align =? 64)%Z eqn:Ha; simpl;
      destruct t5u as [b|]; simpl; rewrite ?Hq; simpl; rewrite ?El; simpl; rewrite ?Ha; simpl;
      try (destruct clipu; simpl); repeat split; reflexivity.
Qed.

(** X4. The validator never writes the precision, the override flag or
    [t5_padding]; its log is at most three warnings followed by the info
    record of line 351, which prints the two unconditional-caption behaviours
    as they are after the call. *)
Theorem check_user_config_frame (c : Config) :
  fst (run c) = Ok tt ->
  let w := snd (run c) in
  base_model_precision (config w) = base_model_precision c /\
  i_know_what_i_am_doing (config w) = i_know_what_i_am_doing c /\
  t5_padding (config w) = t5_padding c /\
  exists earlier,
    records w = earlier ++ [mkRecord INFO 351 (msg_uncond (config w))] /\
    forallb is_warning earlier = true /\ (length earlier <= 3)%nat.
Proof.
  destruct c as [prec len flag vae compel align t5u clipu pad].
  unfold run, check_user_config, bind, get_config, set_config, modify,
    logger_call, ret, raise. simpl.
  destruct (prec =? "fp8-quanto"); simpl; [discriminate|]. intros _.
  destruct (exceeds_limit len); simpl; [destruct flag; simpl|];
    destruct (align =? 64)%Z; simpl; destruct t5u; simpl;
    (split; [reflexivity|]; split; [reflexivity|]; split; [reflexivity|]);
    first [ exists []; repeat split; simpl; lia || reflexivity
          | eexists [_]; repeat split; simpl; lia || reflexivity
          | eexists [_; _]; repeat split; simpl; lia || reflexivity
          | eexists [_; _; _]; repeat split; simpl; lia || reflexivity ].
Qed.

Lemma check_user_config_bounds_length_witness :
  exists n : Z,
    tokenizer_max_length (config (snd (run (sample_config None false 64%Z)))) = Some n /\
    (n <= 154)%Z.
Proof.
  destruct (check_user_config_bounds_length (sample_config None false 64%Z)
              eq_refl eq_refl) as (n & Hn & Hle & _).
  exists n. split; [exact Hn | exact Hle].
Defined.

Lemma check_user_config_idempotent_witness :
  config (snd (run (config (snd (run (sample_config (Some 300%Z) true 32%Z))))))
    = config (snd (run (sample_config (Some 300%Z) true 32%Z))).
Proof.
  exact (proj1 (proj2 (check_user_config_idempotent
                         (sample_config (Some 300%Z) true 32%Z) eq_refl))).
Defined.

Lemma check_user_config_frame_witness :
  t5_padding (config (snd (run (sample_config (Some 300%Z) true 32%Z))))
    = Some "unmodified".
Proof.
  exact (proj1 (proj2 (proj2 (check_user_config_frame
                                (sample_config (Some 300%Z) true 32%Z) eq_refl)))).
Defined.

End ValidatorFacts.

(** ** Facts about lists and tensors *)

Module ListFacts.

Lemma length_chunks {A} (n w : nat) (d : list A) : length (chunks n w d) = n.
Proof. revert d. induction n as [|n IH]; intros d; simpl; [reflexivity|]. now rewrite IH. Qed.

Lemma concat_chunks {A} (n w : nat) (d : list A) :
  length d = (n * w)%nat -> concat (chunks n w d) = d.
Proof.
  revert d. induction n as [|n IH]; intros d Hd; simpl in *.
  - destruct d; [reflexivity|discriminate].
  - rewrite IH by (rewrite length_skipn; lia). apply firstn_skipn.
Qed.

Lemma chunks_width {A} (n w : nat) (d : list A) :
  length d = (n * w)%nat -> Forall (fun c => length c = w) (chunks n w d).
Proof.
  revert d. induction n as [|n IH]; intros d Hd; simpl in *; constructor.
  - rewrite length_firstn. lia.
  - apply IH. rewrite length_skipn. lia.
Qed.

Lemma chunks_singletons {A} (d : list A) :
  chunks (length d) 1 d = map (fun x => [x]) d.
Proof. induction d as [|x d IH]; simpl; [reflexivity|]. now rewrite IH. Qed.

Lemma concat_repeat_singleton {A} (x : A) (n : nat) : concat (repeat [x] n) = repeat x n.
Proof. induction n as [|n IH]; simpl; [reflexivity|]. now rewrite IH. Qed.

Lemma map_option_map {X Y} (f : X -> option Y) (g : X -> Y) (l : list X) :
  Forall (fun x => f x = Some (g x)) l -> map_option f l = Some (map g l).
Proof.
  induction 1 as [|x l Hx _ IH]; simpl; [reflexivity|]. now rewrite Hx, IH.
Qed.

Lemma nth_error_flat_map_uniform {X Y} (f : X -> list Y) (w : nat) (l : list X)
    (b j : nat) :
  (forall x, length (f x) = w) -> (j < w)%nat ->
  nth_error (flat_map f l) (b * w + j)
    = match nth_error l b with
      | Some x => nth_error (f x) j
      | None => None
      end.
Proof.
  intros Hw Hj. revert b. induction l as [|x l IH]; intros b; simpl.
  - destruct b; simpl; now rewrite nth_error_nil.
  - destruct b as [|b]; simpl.
    + rewrite nth_error_app1 by (rewrite Hw; lia). reflexivity.
    + rewrite nth_error_app2 by (rewrite Hw; lia).
      rewrite Hw. replace (w + b * w + j - w)%nat with (b * w + j)%nat by lia.
      apply IH.
Qed.

Lemma nth_error_zip_with {X Y Z} (f : X -> Y -> Z) (xs : list X) (ys : list Y) (i : nat) :
  nth_error (zip_with f xs ys) i
    = match nth_error xs i, nth_error ys i with
      | Some x, Some y => Some (f x y)
      | _, _ => None
      end.
Proof.
  revert ys i. induction xs as [|x xs IH]; intros ys i; simpl.
  - now rewrite !nth_error_nil.
  - destruct ys as [|y ys]; simpl.
    + rewrite !nth_error_nil. now destruct (nth_error (x :: xs) i).
    + destruct i; simpl; [reflexivity|apply IH].
Qed.

Lemma length_flat_map_uniform {X Y} (f : X -> list Y) (w : nat) (l : list X) :
  (forall x, length (f x) = w) -> length (flat_map f l) = (length l * w)%nat.
Proof.
  intros Hw. induction l as [|x l IH]; simpl; [reflexivity|].
  rewrite length_app, Hw, IH. reflexivity.
Qed.

Lemma flat_map_concat {X Y} (f : X -> list Y) (ls : list (list X)) :
  flat_map f (concat ls) = concat (map (flat_map f) ls).
Proof.
  induction ls as [|l ls IH]; simpl; [reflexivity|].
  now rewrite flat_map_app, IH.
Qed.

End ListFacts.

Module TorchFacts.
Import ListFacts.

Lemma shape_eqb_refl (s : list nat) : shape_eqb s s = true.
Proof. induction s as [|x s IH]; simpl; [reflexivity|]. now rewrite Nat.eqb_refl. Qed.

Lemma shape_eqb_eq (s t : list nat) : shape_eqb s t = true -> s = t.
Proof.
  revert t. induction s as [|x s IH]; intros [|y t]; simpl; try discriminate; auto.
  intros E. apply andb_true_iff in E as [E1 E2].
  apply Nat.eqb_eq in E1. f_equal; auto.
Qed.

Lemma norm_dim_nonneg (i rank : nat) :
  (i < rank)%nat -> norm_dim (Z.of_nat i) rank = Some i.
Proof.
  intros Hi. unfold norm_dim.
  replace ((0 <=? Z.of_nat i)%Z) with true by (symmetry; apply Z.leb_le; lia).
  replace ((Z.of_nat i <? Z.of_nat rank)%Z) with true by (symmetry; apply Z.ltb_lt; lia).
  simpl. now rewrite Nat2Z.id.
Qed.

Lemma norm_dim_from_end (k rank : nat) :
  (0 < k <= rank)%nat -> norm_dim (- Z.of_nat k) rank = Some (rank - k)%nat.
Proof.
  intros Hk. unfold norm_dim.
  replace ((0 <=? - Z.of_nat k)%Z) with false by (symmetry; apply Z.leb_gt; lia).
  simpl.
  replace ((- Z.of_nat rank <=? - Z.of_nat k)%Z) with true by (symmetry; apply Z.leb_le; lia).
  replace ((- Z.of_nat k <? 0)%Z) with true by (symmetry; apply Z.ltb_lt; lia).
  simpl. f_equal. lia.
Qed.

Section OpFacts.
Context {A : Type}.

Lemma unsqueeze_0 (t : Tensor A) :
  unsqueeze 0 t = Ok (mkTensor (1%nat :: shape t) (data t)).
Proof.
  unfold unsqueeze. change 0%Z with (Z.of_nat 0).
  rewrite norm_dim_nonneg by lia. reflexivity.
Qed.

Lemma squeeze_0 (t : Tensor A) :
  squeeze 0 t = Ok (match shape t with
                    | 1%nat :: rest => mkTensor rest (data t)
                    | _ => t
                    end).
Proof.
  unfold squeeze. destruct (shape t) as [|d rest] eqn:E; [reflexivity|].
  change 0%Z with (Z.of_nat 0).
  rewrite norm_dim_nonneg by (simpl; lia).
  simpl. destruct d as [|[|d]]; reflexivity.
Qed.

Lemma unsqueeze_last_rank2 (m : Tensor A) (B L : nat) :
  shape m = [B; L] -> unsqueeze (-1) m = Ok (mkTensor [B; L; 1%nat] (data m)).
Proof. intros E. unfold unsqueeze. rewrite E. reflexivity. Qed.

Lemma shape_last_rank3 (t : Tensor A) (B S W : nat) :
  shape t = [B; S; W] -> shape_last t = Ok W.
Proof. intros E. unfold shape_last. rewrite E. reflexivity. Qed.

Lemma py_index_second_to_last {X} (before : list X) (x y : X) :
  py_index (before ++ [x; y]) (-2) = Ok x.
Proof.
  unfold py_index.
  change (-2)%Z with (- Z.of_nat 2)%Z.
  rewrite norm_dim_from_end by (rewrite length_app; simpl; lia).
  rewrite length_app. simpl length.
  replace (length before + 2 - 2)%nat with (length before + 0)%nat by lia.
  rewrite nth_error_app2 by lia.
  replace (length before + 0 - length before)%nat with 0%nat by lia. reflexivity.
Qed.

Lemma repeat_1_n_1_rank3 (n : nat) (t : Tensor A) (B S W : nat) :
  shape t = [B; S; W] ->
  exists t', repeat_1_n_1 n t = Ok t' /\ shape t' = [B; (n * S)%nat; W].
Proof. intros E. unfold repeat_1_n_1. rewrite E. eexists. split; reflexivity. Qed.

Lemma view_infer_last_rank3 (t : Tensor A) (B S W : nat) :
  shape t = [B; S; W] -> (B * S)%nat <> 0%nat ->
  view_infer_last B S t = Ok (mkTensor [B; S; W] (data t)).
Proof.
  intros E Hne. unfold view_infer_last. rewrite E.
  apply Nat.eqb_neq in Hne as Hne'. rewrite Hne'.
  assert (Hn : numel [B; S; W] = (W * (B * S))%nat) by (simpl; lia).
  rewrite Hn, Nat.Div0.mod_mul, Nat.div_mul by exact Hne. reflexivity.
Qed.

Lemma cat2_shape (dim : Z) (a b : Tensor A) (pre post : list nat) (da db : nat) :
  shape a = pre ++ da :: post -> shape b = pre ++ db :: post ->
  norm_dim dim (length pre + S (length post)) = Some (length pre) ->
  exists t, cat2 dim a b = Ok t /\ shape t = pre ++ (da + db)%nat :: post.
Proof.
  intros Ea Eb Hi. unfold cat2. rewrite Ea, Eb, !length_app. simpl length.
  rewrite Nat.eqb_refl, Hi.
  rewrite !firstn_app, !Nat.sub_diag, !firstn_all. simpl firstn. rewrite !app_nil_r.
  replace (S (length pre)) with (length pre + 1)%nat by lia.
  rewrite !skipn_app. 
  rewrite !skipn_all2 by lia.
  replace (length pre + 1 - length pre)%nat with 1%nat by lia. simpl skipn. 
  rewrite !shape_eqb_refl. simpl andb. cbv iota.
  rewrite !nth_middle. eexists. split; reflexivity.
Qed.

Lemma map_option_total {X Y} (f : X -> option Y) (l : list X) :
  (forall x, exists y, f x = Some y) -> exists ys, map_option f l = Some ys.
Proof.
  intros Hf. induction l as [|x l [ys IH]]; simpl; [eauto|].
  destruct (Hf x) as [y Hy]. rewrite Hy, IH. eauto.
Qed.

(** Broadcasting succeeds whenever every source size is the target size or 1. *)
Lemma expand_data_total (src tgt : list nat) :
  Forall2 (fun s t => s = t \/ s = 1%nat) src tgt ->
  forall d : list A, exists d', expand_data src tgt d = Some d'.
Proof.
  induction 1 as [|s t src tgt Hst _ IH]; intros d; simpl; [eauto|].
  destruct (map_option_total (expand_data src tgt) (chunks s (numel src) d) IH)
    as [cs Hcs].
  rewrite Hcs. destruct Hst as [-> | ->].
  - rewrite Nat.eqb_refl. eauto.
  - destruct (1 =? t)%nat; simpl; eauto.
Qed.

Lemma expand_trailing_one (m : Tensor A) (B L W : nat) :
  shape m = [B; L; 1%nat] ->
  exists m', expand [B; L; W] m = Ok m' /\ shape m' = [B; L; W].
Proof.
  intros E. unfold expand. rewrite E. simpl.
  assert (Hc : Forall2 (fun s t => s = t \/ s = 1%nat) [B; L; 1%nat] [B; L; W])
    by (constructor; [now left|]; constructor; [now left|]; constructor;
        [now right|constructor]).
  destruct (expand_data_total _ _ Hc (data m)) as [d' Hd].
  simpl in Hd. rewrite Hd. eauto.
Qed.

Lemma expand_data_trailing_one (d : list A) (B L h : nat) :
  length d = (B * L)%nat ->
  expand_data [B; L; 1%nat] [B; L; h] d = Some (flat_map (fun m => repeat m h) d).
Proof.
  intros Hd.
  assert (H1 : forall c : list A, length c = 1%nat ->
            expand_data [1%nat] [h] c = Some (flat_map (fun m => repeat m h) c)).
  { intros [|m [|? ?]] Hc; try discriminate. simpl.
    destruct h as [|[|h']]; simpl; rewrite ?app_nil_r, ?concat_repeat_singleton;
      reflexivity. }
  assert (H2 : forall c : list A, length c = L ->
            expand_data [L; 1%nat] [L; h] c = Some (flat_map (fun m => repeat m h) c)).
  { intros c Hc. cbn [expand_data].
    replace (numel [1%nat]) with 1%nat by reflexivity.
    rewrite <- Hc at 1. rewrite chunks_singletons.
    rewrite (map_option_map _ (fun c => flat_map (fun m => repeat m h) c)).
    - rewrite Nat.eqb_refl, map_map. simpl. rewrite flat_map_concat_map.
      f_equal. f_equal. apply map_ext. intros a. now rewrite app_nil_r.
    - apply Forall_forall. intros x Hx. apply in_map_iff in Hx as (m & <- & _).
      now apply H1. }
  cbn [expand_data].
  replace (numel [L; 1%nat]) with L by (simpl; lia).
  rewrite (map_option_map _ (fun c => flat_map (fun m => repeat m h) c)).
  - rewrite Nat.eqb_refl. f_equal.
    rewrite <- (concat_chunks B L d Hd) at 2.
    now rewrite flat_map_concat.
  - eapply Forall_impl; [|apply (chunks_width B L d Hd)].
    intros c Hc. now apply H2.
Qed.

Lemma repeat_once_data (B w : nat) (d : list A) :
  length d = (B * w)%nat ->
  concat (map (fun c => concat (repeat c 1)) (chunks B w d)) = d.
Proof.
  intros Hd. rewrite <- (concat_chunks B w d Hd) at 2. f_equal.
  rewrite <- (map_id (chunks B w d)) at 2. apply map_ext.
  intros c. simpl. apply app_nil_r.
Qed.

Context `{Scalar A}.

Lemma mul_mask_shape (a : Tensor A) (m : Tensor Z) :
  shape m = shape a ->
  exists t, mul_mask a m = Ok t /\ shape t = shape a.
Proof.
  intros E. unfold mul_mask. rewrite E, shape_eqb_refl. eauto.
Qed.

Lemma pad_last_rank3 (t : Tensor A) (B S W W' : nat) :
  shape t = [B; S; W] ->
  exists t', pad_last (Z.of_nat W' - Z.of_nat W) t = Ok t' /\ shape t' = [B; S; W'].
Proof.
  intros E. unfold pad_last. rewrite E. simpl rev. cbv beta iota zeta.
  assert (Hw : (Z.of_nat W + (Z.of_nat W' - Z.of_nat W))%Z = Z.of_nat W') by lia.
  rewrite Hw.
  assert (Hpos : (Z.of_nat W' <? 0)%Z = false) by (apply Z.ltb_ge; lia).
  rewrite Hpos, Nat2Z.id. eexists. split; reflexivity.
Qed.

End OpFacts.

End TorchFacts.

(** ** Facts about the prompt encoder *)

Module EncoderFacts.
Import Encoder ListFacts TorchFacts.

Section Shapes.
Context {A : Type} `{Scalar A}.

Lemma tokenizer_call_shapes (tk : Tokenizer) (prompt : list string) (len : option Z) :
  shape (input_ids (tokenizer_call tk prompt len))
    = [length prompt; effective_length tk len] /\
  shape (attention_mask (tokenizer_call tk prompt len))
    = [length prompt; effective_length tk len].
Proof. split; reflexivity. Qed.

Lemma token_count_le (tk : Tokenizer) (L : nat) (p : string) :
  (token_count tk L p <= L)%nat.
Proof. unfold token_count, kept_ids. rewrite length_firstn. lia. Qed.

Lemma mask_row_length (tk : Tokenizer) (L : nat) (p : string) :
  length (repeat 1%Z (token_count tk L p) ++ repeat 0%Z (L - token_count tk L p)) = L.
Proof.
  rewrite length_app, !repeat_length. pose proof (token_count_le tk L p). lia.
Qed.

Lemma attention_mask_length (tk : Tokenizer) (prompts : list string) (len : option Z) :
  length (data (attention_mask (tokenizer_call tk prompts len)))
    = (length prompts * effective_length tk len)%nat.
Proof.
  unfold tokenizer_call. cbn [attention_mask data].
  apply length_flat_map_uniform. intros p. apply mask_row_length.
Qed.

Lemma input_ids_contiguous (tk : Tokenizer) (prompts : list string) (len : option Z) :
  contiguous (input_ids (tokenizer_call tk prompts len)).
Proof.
  unfold contiguous, tokenizer_call. cbn [input_ids data shape].
  rewrite (length_flat_map_uniform _ (effective_length tk len)).
  - simpl. lia.
  - intros p. rewrite length_app, repeat_length.
    pose proof (token_count_le tk (effective_length tk len) p).
    unfold token_count in *. lia.
Qed.

Lemma clip_helper_shapes (enc : TextEncoder A) (tk : Tokenizer) (prompts : list string)
    (len : Z) (p w : nat) :
  clip_contract enc p w -> prompts <> [] -> Z.to_nat len <> 0%nat ->
  exists t,
    _encode_sd3_prompt_with_clip enc tk (PromptList prompts) 1 len
      = Ok (t, first_output (forward enc (input_ids (tokenizer_call tk prompts (Some len))) true)) /\
    shape t = [length prompts; Z.to_nat len; w] /\
    shape (first_output (forward enc (input_ids (tokenizer_call tk prompts (Some len))) true))
      = [length prompts; p].
Proof.
  intros Hc Hne Hlen.
  destruct (Hc (input_ids (tokenizer_call tk prompts (Some len)))
              (length prompts) (Z.to_nat len) eq_refl)
    as (Hpool & before & layer & final & Hhs & Hlayer).
  unfold _encode_sd3_prompt_with_clip. cbn [as_list].
  rewrite Hhs. cbn [rbind]. rewrite py_index_second_to_last. cbn [rbind].
  unfold to_dtype at 1. cbn [shape]. rewrite Hlayer. cbn [unpack3 rbind].
  unfold repeat_1_n_1. cbn [shape to_dtype]. rewrite Hlayer. cbn [rbind].
  rewrite (view_infer_last_rank3 _ (length prompts * 1) (Z.to_nat len) w).
  - cbn [rbind]. eexists. split; [reflexivity|]. split; [|exact Hpool].
    cbn [shape]. now rewrite Nat.mul_1_r.
  - cbn [shape]. f_equal. lia. f_equal. lia.
  - destruct prompts; [congruence|]. simpl length. lia.
Qed.

Lemma t5_helper_shape (enc : TextEncoder A) (tk : Tokenizer) (prompts : list string)
    (zeroing : bool) (len : option Z) (h : nat) :
  t5_contract enc h -> prompts <> [] -> effective_length tk len <> 0%nat ->
  exists t,
    _encode_sd3_prompt_with_t5 enc tk (PromptList prompts) 1 zeroing len = Ok t /\
    shape t = [length prompts; effective_length tk len; h].
Proof.
  intros Hc Hne Hlen.
  destruct (Hc (input_ids (tokenizer_call tk prompts len))
              (length prompts) (effective_length tk len) eq_refl
              (input_ids_contiguous tk prompts len)) as [Hout _].
  unfold _encode_sd3_prompt_with_t5. cbn [as_list].
  unfold to_dtype at 1. cbn [shape]. rewrite Hout. cbn [unpack3 rbind].
  unfold repeat_1_n_1. cbn [shape to_dtype]. rewrite Hout. cbn [rbind].
  rewrite (view_infer_last_rank3 _ (length prompts * 1) (effective_length tk len) h).
  - cbn [rbind shape data]. rewrite Nat.mul_1_r. destruct zeroing; [|eauto].
    rewrite (unsqueeze_last_rank2 _ (length prompts) (effective_length tk len))
      by reflexivity.
    cbn [rbind].
    destruct (expand_trailing_one
                (mkTensor [length prompts; effective_length tk len; 1%nat]
                   (data (attention_mask (tokenizer_call tk prompts len))))
                (length prompts) (effective_length tk len) h eq_refl)
      as (m' & Hm' & Hs').
    rewrite Hm'. cbn [rbind]. 
    match goal with |- exists t, mul_mask ?a m' = _ /\ _ =>
      destruct (mul_mask_shape a m' Hs') as (t & Ht & Hst) end.
    exists t. split; [exact Ht | exact Hst].
  - cbn [shape]. f_equal; [lia|]. f_equal. lia.
  - destruct prompts; [congruence|]. simpl length. lia.
Qed.

(** The shapes alone need less than a valid configuration: they hold
    whatever the widths of the CLIP layers are (a negative padding trims)
    and whether or not the encoders return well-formed tensors. *)
Lemma encode_prompts_shapes (self : SD3 A) (prompts : list string)
    (clipL clipG t5 : TextEncoder A) (tkL tkG tk5 : Tokenizer)
    (pL wL pG wG h L : nat) :
  text_encoders self = [clipL; clipG; t5] ->
  tokenizers self = [tkL; tkG; tk5] ->
  clip_contract clipL pL wL -> clip_contract clipG pG wG -> t5_contract t5 h ->
  tokenizer_max_length (config self) = Some (Z.of_nat L) -> (0 < L)%nat ->
  prompts <> [] ->
  exists pe pooled,
    _encode_prompts self prompts = Ok (pe, pooled) /\
    shape pe = [length prompts; (77 + L)%nat; h] /\
    shape pooled = [length prompts; (pL + pG)%nat] /\
    cat (-1) [clip_pooled_output clipL tkL prompts; clip_pooled_output clipG tkG prompts]
      = Ok pooled.
Proof.
  intros Henc Htok HcL HcG Ht5 Hlen HL Hne.
  assert (H77 : Z.to_nat 77 <> 0%nat) by (rewrite Z2Nat.inj_pos; lia).
  destruct (clip_helper_shapes clipL tkL prompts 77%Z pL wL HcL Hne H77)
    as (eL & HeL & HsL & HpL).
  destruct (clip_helper_shapes clipG tkG prompts 77%Z pG wG HcG Hne H77)
    as (eG & HeG & HsG & HpG).
  destruct (t5_helper_shape t5 tk5 prompts (zero_padding_tokens_of (config self))
              (Some (Z.of_nat L)) h Ht5 Hne) as (e5 & He5 & Hs5).
  { cbn [effective_length]. rewrite Nat2Z.id. lia. }
  cbn [effective_length] in Hs5. rewrite Nat2Z.id in Hs5.
  unfold _encode_prompts, t5_branch. rewrite Henc, Htok, Hlen.
  cbn [firstn combine clip_loop]. rewrite HeL. cbn [rbind app].
  rewrite HeG. cbn [rbind app cat].
  destruct (cat2_shape (-1) eL eG [length prompts; Z.to_nat 77] [] wL wG HsL HsG eq_refl)
    as (clip & Hclip & Hsclip).
  assert (NL : norm_dim (-1) (length (shape eG)) = Some 2%nat) by (now rewrite HsG).
  rewrite NL. cbn [rbind]. rewrite Hclip. cbn [rbind].
  destruct (cat2_shape (-1) _ _ [length prompts] [] pL pG HpL HpG eq_refl)
    as (pooled & Hpooled & Hspooled).
  rewrite HpG. cbn [length norm_dim]. 
  change (norm_dim (-1) 2) with (Some 1%nat). cbn [rbind].
  rewrite Hpooled. cbn [rbind].
  change (py_index [clipL; clipG; t5] (-1)) with (Ok t5).
  change (py_index [tkL; tkG; tk5] (-1)) with (Ok tk5). cbn [rbind].
  rewrite He5. cbn [rbind].
  rewrite (shape_last_rank3 e5 _ _ _ Hs5). cbn [rbind].
  simpl app in Hsclip.
  rewrite (shape_last_rank3 clip _ _ _ Hsclip). cbn [rbind].
  destruct (pad_last_rank3 clip _ _ _ h Hsclip) as (padded & Hpad & Hspad).
  rewrite Hpad. cbn [rbind cat].
  assert (N5 : norm_dim (-2) (length (shape e5)) = Some 1%nat) by (now rewrite Hs5).
  rewrite N5. cbn [rbind].
  destruct (cat2_shape (-2) padded e5 [length prompts] [h] (Z.to_nat 77) L Hspad Hs5 eq_refl)
    as (pe & Hpe & Hspe).
  rewrite Hpe. cbn [rbind].
  exists pe, pooled. split; [reflexivity|]. split; [exact Hspe|]. split; [exact Hspooled|].
  unfold clip_pooled_output. cbn [cat]. rewrite HpG. cbn [length].
  change (norm_dim (-1) 2) with (Some 1%nat). cbn [rbind]. exact Hpooled.
Qed.

(** The value of the T5 helper for one image per prompt. *)
Lemma t5_helper_value (enc : TextEncoder A) (tk : Tokenizer) (prompts : list string)
    (zeroing : bool) (len : option Z) (h : nat) :
  t5_contract enc h -> prompts <> [] -> effective_length tk len <> 0%nat ->
  _encode_sd3_prompt_with_t5 enc tk (PromptList prompts) 1 zeroing len
    = Ok (if zeroing
          then mkTensor [length prompts; effective_length tk len; h]
                 (zip_with (fun x k => mul x (of_int k))
                    (map (cast (enc_dtype enc)) (data (t5_raw_output enc tk prompts len)))
                    (flat_map (fun m => repeat m h)
                       (data (attention_mask (tokenizer_call tk prompts len)))))
          else to_dtype (enc_dtype enc) (t5_raw_output enc tk prompts len)).
Proof.
  intros Hc Hne Hlen.
  destruct (Hc (input_ids (tokenizer_call tk prompts len))
              (length prompts) (effective_length tk len) eq_refl
              (input_ids_contiguous tk prompts len)) as [Hout Hcont].
  unfold contiguous in Hcont. rewrite Hout in Hcont.
  assert (Hraw : length (map (cast (enc_dtype enc)) (data (t5_raw_output enc tk prompts len)))
                 = (length prompts * (effective_length tk len * h))%nat).
  { rewrite length_map. unfold t5_raw_output. rewrite Hcont. simpl. lia. }
  unfold _encode_sd3_prompt_with_t5. cbn [as_list].
  fold (t5_raw_output enc tk prompts len) in *.
  unfold to_dtype at 1. cbn [shape]. rewrite Hout. cbn [unpack3 rbind].
  unfold repeat_1_n_1. cbn [shape data to_dtype]. rewrite Hout. cbn [rbind].
  rewrite (repeat_once_data _ _ _ Hraw).
  rewrite (view_infer_last_rank3 _ (length prompts * 1) (effective_length tk len) h).
  - cbn [rbind shape data]. rewrite Nat.mul_1_r. destruct zeroing.
    + rewrite (unsqueeze_last_rank2 _ (length prompts) (effective_length tk len))
        by reflexivity.
      cbn [rbind]. unfold expand. cbn [shape data length Nat.leb Nat.sub repeat app].
      rewrite expand_data_trailing_one by apply attention_mask_length.
      cbn [rbind]. unfold mul_mask. cbn [shape data]. rewrite shape_eqb_refl.
      reflexivity.
    + unfold to_dtype. now rewrite Hout.
  - cbn [shape]. f_equal; [lia|]. f_equal. lia.
  - destruct prompts; [congruence|]. simpl length. lia.
Qed.

Lemma zero_padding_tokens_of_true (c : Config) :
  zero_padding_tokens_of c = true <-> t5_padding c = Some "zero"%string.
Proof.
  unfold zero_padding_tokens_of. destruct (t5_padding c) as [s|]; split; intros E;
    try discriminate.
  - apply String.eqb_eq in E. now subst.
  - injection E as ->. apply String.eqb_refl.
Qed.

(** The expanded mask at position [(b, j, k)] is the mask entry [(b, j)]. *)
Lemma expanded_mask_entry (tk : Tokenizer) (prompts : list string) (len : option Z)
    (h b j k : nat) (p : string) :
  nth_error prompts b = Some p -> (j < effective_length tk len)%nat -> (k < h)%nat ->
  nth_error (flat_map (fun m => repeat m h)
               (data (attention_mask (tokenizer_call tk prompts len))))
            ((b * effective_length tk len + j) * h + k)
    = Some (if (j <? token_count tk (effective_length tk len) p)%nat then 1%Z else 0%Z).
Proof.
  intros Hp Hj Hk. set (L := effective_length tk len) in *.
  rewrite (nth_error_flat_map_uniform _ h) by (intros; apply repeat_length || exact Hk).
  unfold tokenizer_call. cbn [attention_mask data]. fold L.
  rewrite (nth_error_flat_map_uniform _ L)
    by (intros; apply mask_row_length || exact Hj).
  rewrite Hp. pose proof (token_count_le tk L p) as Hc.
  destruct (j <? token_count tk L p)%nat eqn:E.
  - apply Nat.ltb_lt in E. rewrite nth_error_app1 by (rewrite repeat_length; lia).
    rewrite nth_error_repeat by lia. now apply nth_error_repeat.
  - apply Nat.ltb_ge in E. rewrite nth_error_app2 by (rewrite repeat_length; lia).
    rewrite repeat_length, nth_error_repeat by lia. now apply nth_error_repeat.
Qed.

(** One element of the masked embedding: the encoder value, cast to the
    encoder's dtype, times the mask entry of its row, which is 1 below the
    token count of the prompt and 0 from it on. *)
Lemma masked_entry (enc : TextEncoder A) (tk : Tokenizer) (prompts : list string)
    (len : option Z) (h L b j k : nat) (p : string) :
  t5_contract enc h -> effective_length tk len = L ->
  nth_error prompts b = Some p -> (j < L)%nat -> (k < h)%nat ->
  exists x,
    get3 (to_dtype (enc_dtype enc) (t5_raw_output enc tk prompts len)) b j k = Some x /\
    get3 (mkTensor [length prompts; L; h]
            (zip_with (fun x m => mul x (of_int m))
               (map (cast (enc_dtype enc)) (data (t5_raw_output enc tk prompts len)))
               (flat_map (fun m => repeat m h)
                  (data (attention_mask (tokenizer_call tk prompts len))))))
         b j k
      = Some (mul x (of_int (if (j <? token_count tk L p)%nat then 1%Z else 0%Z))).
Proof.
  intros Hc HeL Hp Hj Hk.
  destruct (Hc (input_ids (tokenizer_call tk prompts len)) (length prompts) L)
    as [Hout Hcont].
  { now rewrite <- HeL. }
  { apply input_ids_contiguous. }
  fold (t5_raw_output enc tk prompts len) in Hout, Hcont.
  unfold contiguous in Hcont. rewrite Hout in Hcont. simpl numel in Hcont.
  assert (Hb : (b < length prompts)%nat) by (apply nth_error_Some; congruence).
  assert (Hrow : (b * L + j + 1 <= length prompts * L)%nat).
  { apply Nat.le_trans with ((b + 1) * L)%nat; [lia|].
    apply Nat.mul_le_mono_r. lia. }
  assert (Hidx : ((b * L + j) * h + k < length prompts * (L * h))%nat).
  { apply Nat.lt_le_trans with ((b * L + j + 1) * h)%nat; [lia|].
    rewrite Nat.mul_assoc. apply Nat.mul_le_mono_r. exact Hrow. }
  destruct (nth_error (data (t5_raw_output enc tk prompts len)) ((b * L + j) * h + k))
    as [x|] eqn:Ex; [|apply nth_error_None in Ex; lia].
  exists (cast (enc_dtype enc) x). unfold get3, to_dtype. cbn [shape data].
  rewrite Hout, nth_error_zip_with, !nth_error_map, Ex. cbn [option_map].
  split; [reflexivity|].
  pose proof (expanded_mask_entry tk prompts len h b j k p Hp) as Hm.
  rewrite HeL in Hm. now rewrite (Hm Hj Hk).
Qed.


(** C5. Storing an embedding and converting it for the positive pipeline
    always succeeds and keeps the elements of both tensors: [prompt_embeds]
    comes back with one leading dimension of size 1 added, and
    [pooled_prompt_embeds] comes back as it was when its leading dimension was
    1 (squeezed, then unsqueezed) and with a leading 1 added otherwise. *)
Theorem storage_then_pipeline_roundtrip (pe pooled : Tensor A) :
  exists stored out,
    _format_text_embedding (pe, pooled) = Ok stored /\
    convert_text_embed_for_pipeline stored = Ok out /\
    prompt_embeds out = mkTensor (1%nat :: shape pe) (data pe) /\
    data (pooled_prompt_embeds out) = data pooled /\
    shape (pooled_prompt_embeds out)
      = match shape pooled with
        | 1%nat :: _ => shape pooled
        | _ => 1%nat :: shape pooled
        end.
Proof.
  unfold _format_text_embedding, convert_text_embed_for_pipeline.
  rewrite squeeze_0. cbn [rbind].
  eexists. eexists. split; [reflexivity|].
  cbn [prompt_embeds pooled_prompt_embeds]. rewrite !unsqueeze_0. cbn [rbind].
  split; [reflexivity|].
  cbn [prompt_embeds pooled_prompt_embeds]. split; [reflexivity|].
  destruct pooled as [sh d]. cbn [shape data].
  destruct sh as [|[|[|n]] rest]; cbn [shape data]; split; reflexivity.
Qed.

End Shapes.

(** The floating-point elements obey the laws of the mask product. *)
Lemma float_is_zero_finite (x : spec_float) :
  float_is_zero x = true -> float_is_finite x = true.
Proof. destruct x; simpl; congruence. Qed.

Lemma float_is_nan_not_finite (x : spec_float) :
  float_is_nan x = true -> float_is_finite x = false.
Proof. destruct x; simpl; congruence. Qed.

Lemma float_mul_0_finite (x : spec_float) :
  float_is_finite x = true -> float_is_zero (SFmul 24 128 x (float_of_int 0)) = true.
Proof. destruct x; simpl; congruence. Qed.

Lemma float_mul_0_not_finite (x : spec_float) :
  float_is_finite x = false -> float_is_nan (SFmul 24 128 x (float_of_int 0)) = true.
Proof. destruct x; simpl; congruence. Qed.

#[export] Instance float_mask_arith : MaskArith spec_float :=
  {| is_finite := float_is_finite;
     is_zero := float_is_zero;
     is_nan := float_is_nan;
     is_zero_zero := eq_refl;
     is_zero_finite := float_is_zero_finite;
     is_nan_not_finite := float_is_nan_not_finite;
     mul_of_int_0_finite := float_mul_0_finite;
     mul_of_int_0_not_finite := float_mul_0_not_finite |}.

(** So do the integer elements, every one of which is finite. *)
Lemma Z_mul_0_finite (x : Z) : (x * 0 =? 0)%Z = true.
Proof. rewrite Z.mul_0_r. reflexivity. Qed.

#[export] Instance Z_mask_arith : MaskArith Z :=
  {| is_finite := fun _ => true;
     is_zero := fun x => (x =? 0)%Z;
     is_nan := fun _ => false;
     is_zero_zero := eq_refl;
     is_zero_finite := fun _ _ => eq_refl;
     is_nan_not_finite := fun (x : Z) (E : false = true) =>
                            False_ind _ (Bool.diff_false_true E);
     mul_of_int_0_finite := fun x _ => Z_mul_0_finite x;
     mul_of_int_0_not_finite := fun (x : Z) (E : true = false) =>
                                  False_ind _ (Bool.diff_true_false E) |}.

Lemma toy_clip_contract (p w : nat) : clip_contract (toy_clip p w) p w.
Proof.
  intros ids B S E. cbn [toy_clip forward first_output hidden_states shape].
  rewrite E. split; [reflexivity|].
  exists [toy_layer ids w 0], (toy_layer ids w 1), (toy_layer ids w 2).
  split; [reflexivity|]. unfold toy_layer. cbn [shape]. now rewrite E.
Qed.

Lemma toy_t5_contract (h : nat) : t5_contract (toy_t5 h) h.
Proof.
  intros ids B S E Hc. cbn [toy_t5 forward first_output]. unfold toy_layer. split.
  - cbn [shape]. now rewrite E.
  - unfold contiguous in *. cbn [shape data]. rewrite E in *.
    rewrite (length_flat_map_uniform _ h)
      by (intros; now rewrite length_map, length_seq).
    rewrite Hc. simpl. lia.
Qed.

Lemma ieee_t5_contract (h : nat) (value : Z -> nat -> spec_float) :
  t5_contract (ieee_t5 h value) h.
Proof.
  intros ids B S E Hc. cbn [ieee_t5 forward first_output]. unfold ieee_layer. split.
  - cbn [shape]. now rewrite E.
  - unfold contiguous in *. cbn [shape data]. rewrite E in *.
    rewrite (length_flat_map_uniform _ h)
      by (intros; now rewrite length_map, length_seq).
    rewrite Hc. simpl. lia.
Qed.



End EncoderFacts.

(** ** Facts about the adapter loader *)

Module RouterFacts.
Import Router.

Section Classification.
Variable Store : Type.
Variable self : SD3.

Lemma classify_loop_drain (popping : list Model) (fuel : nat) (sl : Slots)
    (st : Store) (log : list LogRecord) :
  (length popping <= fuel)%nat ->
  classify_loop Store fuel self sl (mkWorld (rev popping) st log)
    = (fst (drain self popping sl), mkWorld (rev (snd (drain self popping sl))) st log).
Proof.
  revert fuel sl. induction popping as [|m rest IH]; intros fuel sl Hfuel.
  - destruct fuel; reflexivity.
  - destruct fuel as [|fuel]; [simpl in Hfuel; lia|].
    cbn [classify_loop models]. 
    destruct (rev (m :: rest)) as [|x xs] eqn:E.
    { apply (f_equal (@length _)) in E. rewrite length_rev in E. discriminate. }
    rewrite <- E. unfold bind, pop, lift. cbn [models store records].
    rewrite rev_involutive. cbn [drain].
    destruct (classify self m) as [s|e].
    + apply IH. simpl in Hfuel. lia.
    + reflexivity.
Qed.

Lemma classify_roster_drain (r : list Model) (st : Store) (log : list LogRecord) :
  classify_roster Store self (mkWorld r st log)
    = (fst (drain self (rev r) no_slots),
       mkWorld (rev (snd (drain self (rev r) no_slots))) st log).
Proof.
  unfold classify_roster. cbn [models].
  rewrite <- (rev_involutive r) at 2.
  apply classify_loop_drain. now rewrite length_rev.
Qed.

Lemma drain_all_classified (popping : list Model) (sl : Slots) :
  Forall (classified self) popping -> exists sl', drain self popping sl = (Ok sl', []).
Proof.
  intros Hall. revert sl. induction Hall as [|m rest [s Hs] _ IH]; intros sl; simpl.
  - eauto.
  - rewrite Hs. apply IH.
Qed.

Lemma drain_stops_at (done left : list Model) (m : Model) (e : exn) (sl : Slots) :
  Forall (classified self) done -> classify self m = Raise e ->
  drain self (done ++ m :: left) sl = (Raise e, left).
Proof.
  intros Hdone Hm. revert sl. induction Hdone as [|x done [s Hs] _ IH]; intros sl; simpl.
  - now rewrite Hm.
  - rewrite Hs. apply IH.
Qed.

Lemma drain_raise_inv (popping left : list Model) (e : exn) (sl : Slots) :
  drain self popping sl = (Raise e, left) ->
  exists done m, popping = done ++ m :: left /\ Forall (classified self) done /\
                 classify self m = Raise e.
Proof.
  revert sl. induction popping as [|x rest IH]; intros sl; simpl; [discriminate|].
  destruct (classify self x) as [s|e'] eqn:Hx.
  - intros Hd. destruct (IH _ Hd) as (done & m & -> & Hdone & Hm).
    exists (x :: done), m. split; [reflexivity|]. split; [|exact Hm].
    constructor; [now exists s | exact Hdone].
  - intros [= <- <-]. exists [], x. repeat split; [constructor | exact Hx].
Qed.

Lemma drain_ok_inv (popping left : list Model) (sl sl' : Slots) :
  drain self popping sl = (Ok sl', left) -> left = [] /\ Forall (classified self) popping.
Proof.
  revert sl. induction popping as [|x rest IH]; intros sl; simpl.
  - intros [= _ <-]. split; [reflexivity | constructor].
  - destruct (classify self x) as [s|e] eqn:Hx; [|discriminate].
    intros Hd. destruct (IH _ Hd) as [-> Hrest].
    split; [reflexivity|]. constructor; [now exists s | exact Hrest].
Qed.

Lemma occupant_assign (s s' : Slot) (m : Model) (sl : Slots) :
  occupant s (assign s' m sl) = if slot_eqb s s' then Some m else occupant s sl.
Proof. destruct s, s'; reflexivity. Qed.

Lemma slot_eqb_eq (s s' : Slot) : slot_eqb s s' = true -> s = s'.
Proof. destruct s, s'; simpl; congruence. Qed.

Lemma drain_occupant (popping left : list Model) (sl sl' : Slots) :
  drain self popping sl = (Ok sl', left) ->
  forall s m, occupant s sl' = Some m ->
    occupant s sl = Some m \/ (In m popping /\ classify self m = Ok s).
Proof.
  revert sl. induction popping as [|x rest IH]; intros sl; simpl.
  - intros [= <- _] s m Hm. now left.
  - destruct (classify self x) as [sx|e] eqn:Hx; [|discriminate].
    intros Hd s m Hm. destruct (IH _ Hd s m Hm) as [Hprev | [Hin Hc]].
    + rewrite occupant_assign in Hprev. destruct (slot_eqb s sx) eqn:E.
      * apply slot_eqb_eq in E. subst sx. injection Hprev as <-.
        right. split; [now left | exact Hx].
      * now left.
    + right. split; [now right | exact Hc].
Qed.

(** With both reference text encoders present, an entry is classified or it
    is rejected with the [ValueError] that names it, and it is rejected
    exactly when it matches none of the three references. *)
Lemma classify_cases (m : Model) :
  (2 <= length (text_encoders self))%nat ->
  (classified self m /\ ~ matches_none self m) \/
  (classify self m = Raise (ValueError (unexpected_save_model self m)) /\
   matches_none self m).
Proof.
  intros Hlen. unfold classified, classify, matches_none, text_encoder_at.
  destruct (text_encoders self) as [|te0 [|te1 rest]]; simpl in Hlen; try lia.
  cbn [nth_error firstn rbind].
  destruct (isinstance (unwrap_model m) (class_of (unwrap_model (transformer self))))
    eqn:E0.
  { left. split; [eauto|]. intros [H0 _]. discriminate. }
  destruct (isinstance (unwrap_model m) (class_of (unwrap_model te0))) eqn:E1.
  { left. split; [eauto|]. intros [_ H1].
    specialize (H1 te0 (or_introl eq_refl)). congruence. }
  destruct (isinstance (unwrap_model m) (class_of (unwrap_model te1))) eqn:E2.
  { left. split; [eauto|]. intros [_ H1].
    specialize (H1 te1 (or_intror (or_introl eq_refl))). congruence. }
  right. split; [reflexivity|]. split; [reflexivity|].
  intros te [<- | [<- | []]]; assumption.
Qed.

Lemma all_or_last {X} (P Q : X -> Prop) (l : list X) :
  (forall x, P x \/ Q x) ->
  Forall Q l \/
  exists before m after, l = before ++ m :: after /\ P m /\ Forall Q after.
Proof.
  intros Hpq. induction l as [|x l IH]; [left; constructor|].
  destruct IH as [Hall | (before & m & after & -> & Hm & Hafter)].
  - destruct (Hpq x) as [Hp | Hq].
    + right. exists [], x, l. now repeat split.
    + left. now constructor.
  - right. exists (x :: before), m, after. now repeat split.
Qed.

Lemma string_app_assoc (a b c : string) : ((a ++ b) ++ c = a ++ (b ++ c))%string.
Proof. induction a as [|ch a IH]; simpl; [reflexivity|]. now rewrite IH. Qed.

Lemma message_names_entry (m : Model) :
  occurs_in (cls_name (class_of m)) (unexpected_save_model self m) /\
  occurs_in (cls_name (class_of (unwrap_model m))) (unexpected_save_model self m).
Proof.
  unfold occurs_in, unexpected_save_model, repr_class. split.
  - eexists "unexpected save model: <class '"%string, _.
    cbn [append]. rewrite !string_app_assoc. reflexivity.
  - eexists ("unexpected save model: <class '" ++ cls_name (class_of m) ++ "'>"
             ++ LF ++ "unwrapped: <class '")%string, _.
    cbn [append]. rewrite !string_app_assoc. cbn [append]. reflexivity.
Qed.

Lemma load_lora_weights_raise (G : list string) (T : Type) (ext : Externals T Store)
    (dir : string) (w w' : World Store) (e : exn) :
  classify_roster Store self w = (Raise e, w') ->
  load_lora_weights T Store G ext self dir w = (Raise e, w').
Proof. intros Hc. unfold load_lora_weights, bind. now rewrite Hc. Qed.

Lemma keeps_models_bind {X Y} (m : M (World Store) X) (k : X -> M (World Store) Y) :
  keeps_models Store m -> (forall x, keeps_models Store (k x)) ->
  keeps_models Store (bind m k).
Proof.
  intros Hm Hk w. unfold bind. specialize (Hm w).
  destruct (m w) as [[x|e] w1]; cbn [snd] in *; [|exact Hm].
  now rewrite Hk.
Qed.

Lemma keeps_models_ret {X} (x : X) : keeps_models Store (ret x).
Proof. intros w. reflexivity. Qed.

Lemma keeps_models_load_global (G : list string) (name : string) :
  keeps_models Store (load_global Store G name).
Proof. intros w. unfold load_global. now destruct (existsb (String.eqb name) G). Qed.

Lemma keeps_models_on_store {X} (f : Store -> result X * Store) :
  keeps_models Store (on_store Store f).
Proof. intros w. unfold on_store. now destruct (f (store w)). Qed.

Lemma keeps_models_logger_call (lv : level) (line : nat) (msg : string) :
  keeps_models Store (logger_call lv line msg).
Proof. intros w. reflexivity. Qed.

(** The steps after the classification leave the list of sub-models alone. *)
Lemma apply_checkpoint_keeps_models (G : list string) (T : Type)
    (ext : Externals T Store) (dir : string) (sl : Slots) (w : World Store) :
  models (snd (apply_checkpoint T Store G ext self dir sl w)) = models w.
Proof.
  revert w. change (keeps_models Store (apply_checkpoint T Store G ext self dir sl)).
  unfold apply_checkpoint.
  apply keeps_models_bind; [apply keeps_models_load_global | intros _].
  apply keeps_models_bind; [apply keeps_models_load_global | intros _].
  apply keeps_models_bind; [apply keeps_models_on_store | intros keys].
  apply keeps_models_bind.
  - destruct keys as [[mk [[|k ks]|]]|]; cbn [unexpected_keys];
      apply keeps_models_ret || apply keeps_models_logger_call.
  - intros _. destruct (train_text_encoder self); [|apply keeps_models_ret].
    apply keeps_models_bind; [apply keeps_models_on_store | intros _].
    apply keeps_models_on_store.
Qed.

(** C3. With the three reference sub-models in place, a roster holding an
    entry that matches none of them makes [load_lora_weights] raise the
    [ValueError] of the first such entry it pops; the message carries the
    class name of that entry and of its unwrapped model; the weights and the
    log are as they were before the call, and the list keeps the entries not
    popped yet. *)
Theorem unrecognised_entry_aborts_load (G : list string) (T : Type)
    (ext : Externals T Store) (dir : string)
    (r : list Model) (st : Store) (log : list LogRecord) :
  (2 <= length (text_encoders self))%nat ->
  Exists (matches_none self) r ->
  exists before m after,
    r = before ++ m :: after /\ matches_none self m /\
    load_lora_weights T Store G ext self dir (mkWorld r st log)
      = (Raise (ValueError (unexpected_save_model self m)), mkWorld before st log) /\
    occurs_in (cls_name (class_of m)) (unexpected_save_model self m) /\
    occurs_in (cls_name (class_of (unwrap_model m))) (unexpected_save_model self m).
Proof.
  intros Hlen Hex.
  destruct (all_or_last (fun m => classify self m
                                  = Raise (ValueError (unexpected_save_model self m))
                                  /\ matches_none self m)
                        (fun m => classified self m /\ ~ matches_none self m) r)
    as [Hall | (before & m & after & -> & [Hm Hnone] & Hafter)].
  { intros x. destruct (classify_cases x Hlen); tauto. }
  { exfalso. apply Exists_exists in Hex as (x & Hin & Hx).
    rewrite Forall_forall in Hall. now destruct (Hall x Hin). }
  exists before, m, after. split; [reflexivity|]. split; [exact Hnone|].
  split; [|apply message_names_entry].
  apply load_lora_weights_raise. rewrite classify_roster_drain.
  rewrite rev_app_distr. cbn [rev]. rewrite <- app_assoc. cbn [app].
  rewrite (drain_stops_at (rev after) (rev before) m
             (ValueError (unexpected_save_model self m)) no_slots).
  - cbn [fst snd]. now rewrite rev_involutive.
  - apply Forall_rev. eapply Forall_impl; [|exact Hafter]. now intros x [Hx _].
  - exact Hm.
Qed.

(** C9. With the three reference sub-models in place, the classification
    raises only the [ValueError] of an entry that matches none of them; a
    roster without such an entry is accepted and emptied, whatever types
    repeat in it.  Two entries of the denoiser type are accepted, nothing is
    logged, and the slot keeps the entry classified later (the one earlier in
    the list, since entries are popped from the end). *)
Theorem classification_rejects_only_unmatched (r : list Model) (st : Store)
    (log : list LogRecord) :
  (2 <= length (text_encoders self))%nat ->
  (forall e w',
     classify_roster Store self (mkWorld r st log) = (Raise e, w') ->
     exists m, In m r /\ matches_none self m /\
               e = ValueError (unexpected_save_model self m)) /\
  (Forall (fun m => ~ matches_none self m) r ->
     exists sl, classify_roster Store self (mkWorld r st log) = (Ok sl, mkWorld [] st log)) /\
  (forall m1 m2,
     isinstance (unwrap_model m1) (class_of (unwrap_model (transformer self))) = true ->
     isinstance (unwrap_model m2) (class_of (unwrap_model (transformer self))) = true ->
     classify_roster Store self (mkWorld [m1; m2] st log)
       = (Ok (mkSlots (Some m1) (Some m1) None None), mkWorld [] st log)).
Proof.
  intros Hlen. split; [|split].
  - intros e w' Hrun. rewrite classify_roster_drain in Hrun.
    destruct (drain self (rev r) no_slots) as [res left] eqn:Hd.
    cbn [fst snd] in Hrun. injection Hrun as -> _.
    destruct (drain_raise_inv _ _ _ _ Hd) as (done & m & Hsplit & _ & Hm).
    exists m. split.
    + apply in_rev. rewrite Hsplit. apply in_elt.
    + destruct (classify_cases m Hlen) as [[[s Hs] _] | [Hraise Hnone]]; [congruence|].
      split; [exact Hnone | congruence].
  - intros Hall. rewrite classify_roster_drain.
    destruct (drain_all_classified (rev r) no_slots) as [sl Hsl].
    + apply Forall_rev. eapply Forall_impl; [|exact Hall].
      intros x Hx. destruct (classify_cases x Hlen) as [[Hc _] | [_ Hn]];
        [exact Hc | destruct (Hx Hn)].
    + exists sl. now rewrite Hsl.
  - intros m1 m2 H1 H2. rewrite classify_roster_drain. cbn [rev app drain].
    unfold classify. rewrite H1, H2. reflexivity.
Qed.

(** C8. The loader consumes the list it is given: whatever the outcome, the
    list is left with a prefix of its entries and the popped ones are gone;
    when the classification succeeds the list is empty, and stays empty to
    the end of the load.  An entry lands in the slot that [classify] gives
    it, and [classify] looks at the unwrapped class only: entries of the same
    unwrapped class get the same slot, and a permutation of the roster is
    accepted exactly when the roster is. *)
Theorem roster_consumed_by_type (G : list string) (T : Type)
    (ext : Externals T Store) (dir : string)
    (r : list Model) (st : Store) (log : list LogRecord) :
  let run := classify_roster Store self (mkWorld r st log) in
  (exists popped,
     r = models (snd run) ++ popped /\
     match fst run with
     | Ok _ => Forall (classified self) popped
     | Raise e => exists m rest, popped = m :: rest /\ classify self m = Raise e /\
                                 Forall (classified self) rest
     end) /\
  (forall sl, fst run = Ok sl ->
     models (snd run) = [] /\
     models (snd (load_lora_weights T Store G ext self dir (mkWorld r st log))) = [] /\
     forall s m, occupant s sl = Some m -> In m r /\ classify self m = Ok s) /\
  (forall m m' s,
     class_of (unwrap_model m) = class_of (unwrap_model m') ->
     classify self m = Ok s -> classify self m' = Ok s) /\
  (forall r', Permutation r r' ->
     ((exists sl, fst run = Ok sl) <->
      (exists sl', fst (classify_roster Store self (mkWorld r' st log)) = Ok sl'))).
Proof.
  intros run.
  assert (Hok : forall l sl,
            fst (classify_roster Store self (mkWorld l st log)) = Ok sl ->
            Forall (classified self) l /\
            classify_roster Store self (mkWorld l st log) = (Ok sl, mkWorld [] st log)).
  { intros l sl. rewrite classify_roster_drain. cbn [fst].
    destruct (drain self (rev l) no_slots) as [res left] eqn:Hd. cbn [fst snd].
    intros ->. destruct (drain_ok_inv _ _ _ _ Hd) as [-> Hall]. split; [|reflexivity].
    rewrite <- (rev_involutive l). now apply Forall_rev. }
  assert (Hall : forall l, Forall (classified self) l ->
            exists sl, fst (classify_roster Store self (mkWorld l st log)) = Ok sl).
  { intros l Hl. rewrite classify_roster_drain.
    destruct (drain_all_classified (rev l) no_slots (Forall_rev Hl)) as [sl Hsl].
    exists sl. now rewrite Hsl. }
  split; [|split; [|split]].
  - subst run. rewrite classify_roster_drain.
    destruct (drain self (rev r) no_slots) as [[sl|e] left] eqn:Hd;
      cbn [fst snd models].
    + destruct (drain_ok_inv _ _ _ _ Hd) as [-> Hall']. exists r. split; [reflexivity|].
      rewrite <- (rev_involutive r). now apply Forall_rev.
    + destruct (drain_raise_inv _ _ _ _ Hd) as (done & m & Hsplit & Hdone & Hm).
      exists (m :: rev done). split.
      * rewrite <- (rev_involutive r), Hsplit, rev_app_distr. cbn [rev].
        now rewrite <- app_assoc.
      * exists m, (rev done). split; [reflexivity|]. split; [exact Hm|].
        now apply Forall_rev.
  - intros sl Hsl. destruct (Hok r sl Hsl) as [Hcl Hrun]. subst run.
    rewrite Hrun. cbn [snd models]. split; [reflexivity|]. split.
    + unfold load_lora_weights, bind. rewrite Hrun.
      now rewrite apply_checkpoint_keeps_models.
    + intros s m Hocc. rewrite classify_roster_drain in Hrun.
      destruct (drain self (rev r) no_slots) as [res left] eqn:Hd.
      cbn [fst snd] in Hrun. injection Hrun as -> _.
      destruct (drain_occupant _ _ _ _ Hd s m Hocc) as [Hnone | [Hin Hc]].
      * destruct s; discriminate.
      * split; [now apply in_rev | exact Hc].
  - intros m m' s Hclass. unfold classify, isinstance. rewrite Hclass.
    destruct (issubclass _ _); [auto|].
    destruct (text_encoder_at self 0) as [te0|]; cbn [rbind]; [|auto].
    destruct (issubclass _ _); [auto|].
    destruct (text_encoder_at self 1) as [te1|]; cbn [rbind]; [|auto].
    destruct (issubclass _ _); [auto|discriminate].
  - intros r' Hperm. split; intros [sl Hsl].
    + apply Hall. eapply Permutation_Forall; [exact Hperm|]. now apply (Hok r sl).
    + apply Hall. eapply Permutation_Forall; [symmetry; exact Hperm|].
      now apply (Hok r' sl).
Qed.

(** C4: what the code does.  Once every entry is classified, the load stops at
    line 288 with a [NameError]: [convert_unet_state_dict_to_peft] is bound
    nowhere in the module.  The setter of line 289 is never called, so the
    weights and the log are as they were. *)
Theorem load_lora_weights_stops_at_unbound_name (T : Type) (ext : Externals T Store)
    (dir : string) (r : list Model) (st : Store) (log : list LogRecord) :
  Forall (classified self) r ->
  load_lora_weights T Store module_globals ext self dir (mkWorld r st log)
    = (Raise (NameError "convert_unet_state_dict_to_peft"), mkWorld [] st log).
Proof.
  intros Hall. unfold load_lora_weights, bind. rewrite classify_roster_drain.
  destruct (drain_all_classified (rev r) no_slots (Forall_rev Hall)) as [sl Hsl].
  rewrite Hsl. reflexivity.
Qed.

End Classification.

Lemma the_vae_matches_none : matches_none sample_sd3 the_vae.
Proof.
  split; [reflexivity|]. intros te [<- | [<- | []]]; reflexivity.
Qed.

Lemma unrecognised_entry_aborts_load_witness :
  exists before m after,
    [the_transformer; the_vae; clip_g] = before ++ m :: after /\
    matches_none sample_sd3 m /\
    load_lora_weights nat Applied module_globals sample_externals sample_sd3 "ckpt"
      (mkWorld [the_transformer; the_vae; clip_g] [] [])
      = (Raise (ValueError (unexpected_save_model sample_sd3 m)), mkWorld before [] []).
Proof.
  destruct (unrecognised_entry_aborts_load Applied sample_sd3 module_globals nat
              sample_externals "ckpt" [the_transformer; the_vae; clip_g] [] [])
    as (before & m & after & Hsplit & Hnone & Hrun & _).
  - simpl. lia.
  - apply Exists_cons_tl, Exists_cons_hd. exact the_vae_matches_none.
  - exists before, m, after. split; [exact Hsplit|]. split; [exact Hnone | exact Hrun].
Defined.

Lemma classification_rejects_only_unmatched_witness :
  classify_roster Applied sample_sd3 (mkWorld [the_transformer; second_transformer] [] [])
    = (Ok (mkSlots (Some the_transformer) (Some the_transformer) None None),
       mkWorld [] [] []).
Proof.
  refine (proj2 (proj2 (classification_rejects_only_unmatched Applied sample_sd3
                          [the_transformer; second_transformer] [] [] _))
                the_transformer second_transformer eq_refl eq_refl).
  simpl. lia.
Defined.

Lemma load_lora_weights_stops_at_unbound_name_witness :
  load_lora_weights nat Applied module_globals sample_externals sample_sd3 "ckpt"
    (mkWorld [the_transformer; clip_l; clip_g] [] [])
    = (Raise (NameError "convert_unet_state_dict_to_peft"), mkWorld [] [] []).
Proof.
  apply (load_lora_weights_stops_at_unbound_name Applied sample_sd3 nat
           sample_externals "ckpt" [the_transformer; clip_l; clip_g] [] []).
  repeat constructor; eexists; reflexivity.
Defined.

Section Slots.
Variable Store : Type.
Variable self : SD3.

Lemma find_snoc {X} (f : X -> bool) (l : list X) (x : X) :
  find f (l ++ [x])
    = match find f l with
      | Some y => Some y
      | None => if f x then Some x else None
      end.
Proof.
  induction l as [|y l IH]; simpl; [reflexivity|].
  destruct (f y); [reflexivity | exact IH].
Qed.

Lemma drain_occupant_find (popping left : list Model) (sl sl' : Slots) (s : Slot) :
  drain self popping sl = (Ok sl', left) ->
  occupant s sl'
    = match find (lands_in self s) (rev popping) with
      | Some m => Some m
      | None => occupant s sl
      end.
Proof.
  revert sl. induction popping as [|x rest IH]; intros sl; simpl.
  - now intros [= <- _].
  - destruct (classify self x) as [sx|e] eqn:Hx; [|discriminate].
    intros Hd. rewrite (IH _ Hd), find_snoc.
    destruct (find (lands_in self s) (rev rest)); [reflexivity|].
    unfold lands_in at 1. rewrite Hx, occupant_assign.
    now destruct (slot_eqb s sx).
Qed.

Lemma drain_denoiser_alias (popping left : list Model) (sl sl' : Slots) :
  drain self popping sl = (Ok sl', left) ->
  denoiser sl = transformer_ sl -> denoiser sl' = transformer_ sl'.
Proof.
  revert sl. induction popping as [|x rest IH]; intros sl; simpl.
  - now intros [= <- _].
  - destruct (classify self x) as [sx|e]; [|discriminate].
    intros Hd Hal. apply (IH _ Hd). destruct sx; simpl; congruence.
Qed.

(** X5. After a successful classification every slot holds the first entry
    of the list, in list order, that the chain sends to it (the last one
    popped), and [None] when there is none; [denoiser] and [transformer_] are
    the same entry. *)
Theorem classify_roster_first_of_each_slot (r : list Model) (st : Store)
    (log : list LogRecord) (sl : Slots) :
  fst (classify_roster Store self (mkWorld r st log)) = Ok sl ->
  (forall s, occupant s sl = find (lands_in self s) r) /\
  denoiser sl = transformer_ sl.
Proof.
  rewrite classify_roster_drain. cbn [fst].
  destruct (drain self (rev r) no_slots) as [res left] eqn:Hd. cbn [fst].
  intros ->. split.
  - intros s. rewrite (drain_occupant_find _ _ _ _ s Hd), rev_involutive.
    destruct (find (lands_in self s) r); [reflexivity|]. now destruct s.
  - now apply (drain_denoiser_alias _ _ _ _ Hd).
Qed.

(** X6. The classification never notices a missing denoiser: a roster of
    text-encoder entries only (the empty roster included) is accepted and
    emptied, and the denoiser slot is left [None]. *)
Theorem roster_without_denoiser_is_accepted (r : list Model) (st : Store)
    (log : list LogRecord) :
  Forall (fun m => classify self m = Ok TextEncoderOne \/
                   classify self m = Ok TextEncoderTwo) r ->
  exists sl,
    classify_roster Store self (mkWorld r st log) = (Ok sl, mkWorld [] st log) /\
    denoiser sl = None /\ transformer_ sl = None.
Proof.
  intros Hall. rewrite classify_roster_drain.
  destruct (drain_all_classified self (rev r) no_slots) as [sl Hsl].
  { apply Forall_rev. eapply Forall_impl; [|exact Hall].
    intros m [Hm | Hm]; eexists; exact Hm. }
  exists sl. rewrite Hsl. cbn [fst snd rev]. split; [reflexivity|].
  assert (Ht : transformer_ sl = None).
  { change (occupant Denoiser sl = None).
    rewrite (drain_occupant_find _ _ _ _ Denoiser Hsl), rev_involutive.
    cbn [occupant no_slots transformer_].
    destruct (find (lands_in self Denoiser) r) as [m|] eqn:Hf; [|reflexivity].
    apply find_some in Hf as [Hin Hland]. rewrite Forall_forall in Hall.
    unfold lands_in in Hland. destruct (Hall m Hin) as [Hm | Hm];
      rewrite Hm in Hland; discriminate. }
  split; [|exact Ht].
  rewrite (drain_denoiser_alias _ _ _ _ Hsl eq_refl). exact Ht.
Qed.

(** X7. When the two reference text encoders have the same unwrapped class,
    as the two CLIP encoders of this model do, no entry ever reaches the
    second [elif]: [text_encoder_two_] is [None] after every successful
    classification. *)
Theorem second_text_encoder_slot_stays_empty (te0 te1 : Model) (others : list Model)
    (r : list Model) (st : Store) (log : list LogRecord) (sl : Slots) :
  text_encoders self = te0 :: te1 :: others ->
  class_of (unwrap_model te0) = class_of (unwrap_model te1) ->
  fst (classify_roster Store self (mkWorld r st log)) = Ok sl ->
  text_encoder_two_ sl = None.
Proof.
  intros Hte Hclass. rewrite classify_roster_drain. cbn [fst].
  destruct (drain self (rev r) no_slots) as [res left] eqn:Hd. cbn [fst].
  intros ->. change (occupant TextEncoderTwo sl = None).
  destruct (occupant TextEncoderTwo sl) as [m|] eqn:Hocc; [|reflexivity].
  destruct (drain_occupant self _ _ _ _ Hd _ _ Hocc) as [Hnone | [_ Hc]];
    [discriminate|].
  exfalso. revert Hc. unfold classify, text_encoder_at. rewrite Hte.
  cbn [nth_error rbind]. rewrite Hclass.
  destruct (isinstance (unwrap_model m) (class_of (unwrap_model (transformer self))));
    [discriminate|].
  destruct (isinstance (unwrap_model m) (class_of (unwrap_model te1))); discriminate.
Qed.

(** X8. With fewer than two reference text encoders, an entry that matches
    none of the references makes the loop raise [IndexError] (from
    [self.text_encoders[i]]) instead of the [ValueError]; the entry is popped
    and the rest of the list is kept. *)
Theorem missing_text_encoder_raises_index_error (r : list Model) (m : Model)
    (st : Store) (log : list LogRecord) :
  (length (text_encoders self) < 2)%nat ->
  matches_none self m ->
  classify_roster Store self (mkWorld (r ++ [m]) st log)
    = (Raise IndexError, mkWorld r st log).
Proof.
  intros Hlen [H0 Hte]. rewrite classify_roster_drain.
  rewrite rev_app_distr. cbn [rev app drain].
  assert (Hm : classify self m = Raise IndexError).
  { unfold classify, text_encoder_at. rewrite H0.
    destruct (text_encoders self) as [|te0 [|te1 rest]] eqn:E.
    - reflexivity.
    - cbn [nth_error rbind]. rewrite (Hte te0 (or_introl eq_refl)). reflexivity.
    - simpl in Hlen. lia. }
  rewrite Hm. cbn [fst snd]. now rewrite rev_involutive.
Qed.

(** X9. Whatever its outcome, the classification loop touches neither the
    weights of the sub-models nor the log. *)
Theorem classify_roster_frame (r : list Model) (st : Store) (log : list LogRecord) :
  store (snd (classify_roster Store self (mkWorld r st log))) = st /\
  records (snd (classify_roster Store self (mkWorld r st log))) = log.
Proof. rewrite classify_roster_drain. split; reflexivity. Qed.

End Slots.

Lemma prefix_split (p s : string) :
  String.prefix p s = true -> exists rest, s = (p ++ rest)%string.
Proof.
  revert s. induction p as [|c p IH]; intros s.
  - intros _. now exists s.
  - destruct s as [|d s]; simpl; [discriminate|].
    destruct (ascii_dec c d) as [<-|]; [|discriminate].
    intros Hp. destruct (IH s Hp) as [rest ->]. now exists rest.
Qed.

Lemma prefix_app (p rest : string) : String.prefix p (p ++ rest) = true.
Proof.
  induction p as [|c p IH]; simpl; [now destruct rest|].
  destruct (ascii_dec c c); [exact IH | congruence].
Qed.

(** Skipping [k] characters: the text after them is rewritten from the start. *)
Lemma replace_from_skip (old new skipped s : string) :
  replace_from old new (String.length skipped) (skipped ++ s)
    = replace_from old new 0 s.
Proof.
  induction skipped as [|c sk IH]; simpl.
  - destruct s; reflexivity.
  - exact IH.
Qed.

Lemma replace_from_no_occurrence (old new s : string) :
  ~ occurs_in old s -> replace_from old new 0 s = s.
Proof.
  induction s as [|c s IH]; intros Hno; cbn [replace_from]; [reflexivity|].
  destruct (String.prefix old (String c s)) eqn:Hp.
  - exfalso. apply Hno. destruct (prefix_split _ _ Hp) as [rest Hrest].
    exists ""%string, rest. exact Hrest.
  - f_equal. apply IH. intros (before & after & Hs). apply Hno.
    exists (String c before), after. simpl. now rewrite Hs.
Qed.

(** X10. What [k.replace(prefix, "")] does to a key that starts with the
    prefix: the leading prefix goes and the rest of the key is rewritten in
    turn, so later occurrences of the prefix go as well; when the rest holds
    no occurrence the result is exactly the rest. *)
Theorem str_replace_strips_leading_prefix (p rest : string) :
  p <> ""%string ->
  str_replace (p ++ rest) p "" = str_replace rest p "" /\
  (~ occurs_in p rest -> str_replace (p ++ rest) p "" = rest).
Proof.
  intros Hp. destruct p as [|c p]; [congruence|].
  assert (Hstrip : str_replace (String c p ++ rest) (String c p) ""
                   = str_replace rest (String c p) "").
  { unfold str_replace. cbn [append replace_from].
    change (String c (p ++ rest)) with (String c p ++ rest)%string.
    rewrite prefix_app. cbn [append String.length].
    replace (S (String.length p) - 1)%nat with (String.length p) by lia.
    apply replace_from_skip. }
  split; [exact Hstrip|].
  intros Hno. rewrite Hstrip. unfold str_replace. now apply replace_from_no_occurrence.
Qed.

Section Slice.
Variable T : Type.

Lemma dict_set_sound (k k' : string) (v v' : T) (d : StateDict T) :
  In (k', v') (dict_set T k v d) -> (k' = k /\ v' = v) \/ In (k', v') d.
Proof.
  induction d as [|[k0 v0] d IH]; simpl.
  - intros [[= <- <-] | []]. now left.
  - destruct (k0 =? k)%string.
    + intros [[= <- <-] | Hin]; [now left | right; now right].
    + intros [Heq | Hin]; [right; now left|].
      destruct (IH Hin) as [? | ?]; [now left | right; now right].
Qed.

Lemma dict_set_has_key (k : string) (v : T) (d : StateDict T) :
  In k (map fst (dict_set T k v d)).
Proof.
  induction d as [|[k0 v0] d IH]; simpl; [now left|].
  destruct (k0 =? k)%string; simpl; [now left | now right].
Qed.

Lemma dict_set_keeps_keys (k k0 : string) (v : T) (d : StateDict T) :
  In k0 (map fst d) -> In k0 (map fst (dict_set T k v d)).
Proof.
  induction d as [|[k1 v1] d IH]; simpl; [intros []|].
  destruct (k1 =? k)%string eqn:E; simpl.
  - apply String.eqb_eq in E. subst k1. intros [<- | Hin]; [now left | now right].
  - intros [<- | Hin]; [now left | right; now apply IH].
Qed.

Lemma dict_set_unique_keys (k : string) (v : T) (d : StateDict T) :
  NoDup (map fst d) -> NoDup (map fst (dict_set T k v d)).
Proof.
  induction d as [|[k1 v1] d IH]; simpl; intros Hnd.
  - constructor; [intros [] | constructor].
  - inversion Hnd as [|? ? Hnotin Hnd']; subst.
    destruct (k1 =? k)%string eqn:E; simpl.
    + apply String.eqb_eq in E. subst k1. now constructor.
    + constructor; [|now apply IH].
      intros Hin. apply Hnotin. clear - Hin E.
      induction d as [|[k2 v2] d IHd]; simpl in *.
      * destruct Hin as [<- | []]. now rewrite String.eqb_refl in E.
      * destruct (k2 =? k)%string eqn:E2; simpl in *.
        -- apply String.eqb_eq in E2. subst k2.
           destruct Hin as [<- | Hin]; [now rewrite String.eqb_refl in E | now right].
        -- destruct Hin as [<- | Hin]; [now left | right; now apply IHd].
Qed.

Lemma denoiser_slice_sound_acc (p : string) (items acc : StateDict T) (k' : string) (v : T) :
  In (k', v) (denoiser_slice T p items acc) ->
  In (k', v) acc \/
  exists k, In (k, v) items /\ startswith k p = true /\ k' = str_replace k p "".
Proof.
  revert acc. induction items as [|[k0 v0] items IH]; intros acc; simpl.
  - now left.
  - destruct (startswith k0 p) eqn:Hs; intros Hin.
    + destruct (IH _ Hin) as [Hacc | (k & Hk & Hst & ->)].
      * destruct (dict_set_sound _ _ _ _ _ Hacc) as [[-> ->] | Hold]; [|now left].
        right. exists k0. repeat split; [now left | exact Hs].
      * right. exists k. repeat split; [now right | exact Hst].
    + destruct (IH _ Hin) as [Hacc | (k & Hk & Hst & ->)]; [now left|].
      right. exists k. repeat split; [now right | exact Hst].
Qed.

Lemma denoiser_slice_keeps_keys (p : string) (items acc : StateDict T) (k : string) :
  In k (map fst acc) -> In k (map fst (denoiser_slice T p items acc)).
Proof.
  revert acc. induction items as [|[k0 v0] items IH]; intros acc Hin; simpl; [exact Hin|].
  destruct (startswith k0 p); apply IH; [now apply dict_set_keeps_keys | exact Hin].
Qed.

Lemma denoiser_slice_unique_acc (p : string) (items acc : StateDict T) :
  NoDup (map fst acc) -> NoDup (map fst (denoiser_slice T p items acc)).
Proof.
  revert acc. induction items as [|[k0 v0] items IH]; intros acc Hnd; simpl; [exact Hnd|].
  destruct (startswith k0 p); apply IH; [now apply dict_set_unique_keys | exact Hnd].
Qed.

(** X11. The slice of the denoiser holds nothing but rewritten keys of
    checkpoint entries that start with the prefix, each with the tensor of
    such an entry, unchanged; no key occurs twice. *)
Theorem denoiser_slice_sound (p : string) (items : StateDict T) :
  (forall k' v, In (k', v) (denoiser_slice T p items []) ->
     exists k, In (k, v) items /\ startswith k p = true /\ k' = str_replace k p "") /\
  NoDup (map fst (denoiser_slice T p items [])).
Proof.
  split.
  - intros k' v Hin. destruct (denoiser_slice_sound_acc _ _ _ _ _ Hin) as [[] | H].
    exact H.
  - apply denoiser_slice_unique_acc. constructor.
Qed.

(** X12. Every checkpoint key that starts with the prefix has its rewritten
    key in the slice. *)
Theorem denoiser_slice_complete (p : string) (items : StateDict T) (k : string) (v : T) :
  In (k, v) items -> startswith k p = true ->
  In (str_replace k p "") (map fst (denoiser_slice T p items [])).
Proof.
  generalize (@nil (string * T)) as acc.
  induction items as [|[k0 v0] items IH]; intros acc Hin Hs; simpl; [destruct Hin|].
  destruct Hin as [[= -> ->] | Hin].
  - rewrite Hs. apply denoiser_slice_keeps_keys, dict_set_has_key.
  - destruct (startswith k0 p); now apply IH.
Qed.

End Slice.

Lemma classify_roster_first_of_each_slot_witness :
  exists sl,
    fst (classify_roster Applied sample_sd3
           (mkWorld [the_transformer; clip_l; clip_g] [] [])) = Ok sl /\
    text_encoder_one_ sl = Some clip_l.
Proof.
  eexists. split; [reflexivity|].
  exact (proj1 (classify_roster_first_of_each_slot Applied sample_sd3
                  [the_transformer; clip_l; clip_g] [] [] _ eq_refl) TextEncoderOne).
Defined.

Lemma roster_without_denoiser_is_accepted_witness :
  exists sl,
    classify_roster Applied sample_sd3 (mkWorld [clip_l; clip_g] [] [])
      = (Ok sl, mkWorld [] [] []) /\
    denoiser sl = None.
Proof.
  destruct (roster_without_denoiser_is_accepted Applied sample_sd3 [clip_l; clip_g] [] [])
    as (sl & Hrun & Hden & _).
  - repeat constructor.
  - exists sl. split; [exact Hrun | exact Hden].
Defined.

Lemma second_text_encoder_slot_stays_empty_witness :
  exists sl,
    fst (classify_roster Applied sample_sd3
           (mkWorld [the_transformer; clip_l; clip_g] [] [])) = Ok sl /\
    text_encoder_two_ sl = None.
Proof.
  eexists. split; [reflexivity|].
  exact (second_text_encoder_slot_stays_empty Applied sample_sd3 clip_l clip_g []
           [the_transformer; clip_l; clip_g] [] [] _ eq_refl eq_refl eq_refl).
Defined.

Lemma missing_text_encoder_raises_index_error_witness :
  classify_roster Applied sd3_without_text_encoders
    (mkWorld [the_transformer; clip_l] [] [])
    = (Raise IndexError, mkWorld [the_transformer] [] []).
Proof.
  apply (missing_text_encoder_raises_index_error Applied sd3_without_text_encoders
           [the_transformer] clip_l [] []).
  - simpl. lia.
  - split; [reflexivity|]. intros te [].
Defined.

Lemma str_replace_strips_leading_prefix_witness :
  str_replace "transformer.transformer_blocks.0.attn.to_q.lora_A.weight" "transformer." ""
    = str_replace "transformer_blocks.0.attn.to_q.lora_A.weight" "transformer." "".
Proof.
  refine (proj1 (str_replace_strips_leading_prefix "transformer."
                   "transformer_blocks.0.attn.to_q.lora_A.weight" _)).
  discriminate.
Defined.

Lemma denoiser_slice_complete_witness :
  In "stray" (map fst (denoiser_slice nat "transformer."
                         (lora_state_dict nat Applied sample_externals "ckpt") [])).
Proof.
  apply (denoiser_slice_complete nat "transformer."
           (lora_state_dict nat Applied sample_externals "ckpt")
           "transformer.stray" 30).
  - right. right. left. reflexivity.
  - reflexivity.
Defined.

End RouterFacts.

(** ** The layout of the embedding and how the parts compose *)

Module LayoutFacts.
Import ListFacts.

Lemma nth_error_chunks {A} (n w : nat) (d : list A) (i : nat) :
  (i < n)%nat -> nth_error (chunks n w d) i = Some (firstn w (skipn (i * w) d)).
Proof.
  revert d i. induction n as [|n IH]; intros d i Hi; [lia|].
  destruct i as [|i]; simpl; [reflexivity|].
  rewrite IH by lia. now rewrite skipn_skipn, Nat.add_comm.
Qed.

Lemma nth_error_concat_uniform {A} (rows : list (list A)) (w i k : nat) :
  Forall (fun r => length r = w) rows -> (k < w)%nat ->
  nth_error (concat rows) (i * w + k)
    = match nth_error rows i with
      | Some r => nth_error r k
      | None => None
      end.
Proof.
  intros Hw Hk. revert i. induction Hw as [|r rows Hr _ IH]; intros i; simpl.
  - destruct i; simpl; now rewrite nth_error_nil.
  - destruct i as [|i]; simpl.
    + rewrite nth_error_app1 by lia. reflexivity.
    + rewrite nth_error_app2 by lia.
      replace (w + i * w + k - length r)%nat with (i * w + k)%nat by lia.
      apply IH.
Qed.

Lemma nth_error_chunk_row {A} (w : nat) (d : list A) (i k : nat) :
  (k < w)%nat ->
  nth_error (firstn w (skipn (i * w) d)) k = nth_error d (i * w + k).
Proof.
  intros Hk. rewrite nth_error_firstn.
  replace (k <? w)%nat with true by (symmetry; apply Nat.ltb_lt; lia).
  apply nth_error_skipn.
Qed.

Lemma zip_with_app_width {A} (n w1 w2 : nat) (d1 d2 : list A) :
  length d1 = (n * w1)%nat -> length d2 = (n * w2)%nat ->
  Forall (fun r => length r = (w1 + w2)%nat)
         (zip_with (@app A) (chunks n w1 d1) (chunks n w2 d2)).
Proof.
  revert d1 d2. induction n as [|n IH]; intros d1 d2 H1 H2; simpl; constructor.
  - rewrite length_app, !length_firstn. lia.
  - apply IH; rewrite length_skipn; lia.
Qed.

Lemma length_concat_uniform {A} (rows : list (list A)) (w : nat) :
  Forall (fun r => length r = w) rows -> length (concat rows) = (length rows * w)%nat.
Proof.
  induction 1 as [|r rows Hr _ IH]; simpl; [reflexivity|].
  rewrite length_app, Hr, IH. reflexivity.
Qed.

Lemma length_zip_with {X Y Z} (f : X -> Y -> Z) (xs : list X) (ys : list Y) :
  length (zip_with f xs ys) = Nat.min (length xs) (length ys).
Proof.
  revert ys. induction xs as [|x xs IH]; intros [|y ys]; simpl; auto.
Qed.

Lemma length_side_by_side {A} (n w1 w2 : nat) (d1 d2 : list A) :
  length d1 = (n * w1)%nat -> length d2 = (n * w2)%nat ->
  length (side_by_side n w1 w2 d1 d2) = (n * (w1 + w2))%nat.
Proof.
  intros H1 H2. unfold side_by_side.
  rewrite (length_concat_uniform _ (w1 + w2)) by now apply zip_with_app_width.
  rewrite length_zip_with, !length_chunks. lia.
Qed.

Lemma side_by_side_index {A} (n w1 w2 : nat) (d1 d2 : list A) (i k : nat) :
  length d1 = (n * w1)%nat -> length d2 = (n * w2)%nat ->
  (i < n)%nat -> (k < w1 + w2)%nat ->
  nth_error (side_by_side n w1 w2 d1 d2) (i * (w1 + w2) + k)
    = if (k <? w1)%nat then nth_error d1 (i * w1 + k)
      else nth_error d2 (i * w2 + (k - w1)).
Proof.
  intros H1 H2 Hi Hk. unfold side_by_side.
  rewrite (nth_error_concat_uniform _ (w1 + w2)) by
    (apply zip_with_app_width || idtac; assumption).
  rewrite nth_error_zip_with, !nth_error_chunks by exact Hi.
  rewrite nth_error_app, length_firstn, length_skipn.
  assert (Hrow : ((i + 1) * w1 <= n * w1)%nat) by (apply Nat.mul_le_mono_r; lia).
  rewrite Nat.min_l by (rewrite H1; lia).
  destruct (k <? w1)%nat eqn:E.
  - apply Nat.ltb_lt in E. now apply nth_error_chunk_row.
  - apply Nat.ltb_ge in E. apply nth_error_chunk_row. lia.
Qed.

Lemma padded_rows_index {A} (z : A) (n w p : nat) (d : list A) (i k : nat) :
  length d = (n * w)%nat -> (i < n)%nat -> (k < w + p)%nat ->
  nth_error (concat (map (fun row => row ++ repeat z p) (chunks n w d)))
            (i * (w + p) + k)
    = if (k <? w)%nat then nth_error d (i * w + k) else Some z.
Proof.
  intros Hd Hi Hk.
  rewrite (nth_error_concat_uniform _ (w + p)).
  - rewrite nth_error_map, nth_error_chunks by exact Hi. cbn [option_map].
    rewrite nth_error_app, length_firstn, length_skipn.
    assert (Hrow : ((i + 1) * w <= n * w)%nat) by (apply Nat.mul_le_mono_r; lia).
    rewrite Nat.min_l by (rewrite Hd; lia).
    destruct (k <? w)%nat eqn:E.
    + apply Nat.ltb_lt in E. now apply nth_error_chunk_row.
    + apply Nat.ltb_ge in E. apply nth_error_repeat. lia.
  - apply Forall_map. eapply Forall_impl; [|apply (chunks_width n w d Hd)].
    intros r Hr. cbn beta in *. rewrite length_app, repeat_length. lia.
  - exact Hk.
Qed.

Lemma length_padded_rows {A} (z : A) (n w p : nat) (d : list A) :
  length d = (n * w)%nat ->
  length (concat (map (fun row => row ++ repeat z p) (chunks n w d))) = (n * (w + p))%nat.
Proof.
  intros Hd. rewrite (length_concat_uniform _ (w + p)).
  - now rewrite length_map, length_chunks.
  - apply Forall_map. eapply Forall_impl; [|apply (chunks_width n w d Hd)].
    intros r Hr. cbn beta in *. rewrite length_app, repeat_length. lia.
Qed.

(** The layout of [torch.cat([pad(cat([dL, dG], -1)), d5], -2)] on elements. *)
Lemma embedding_layout_index {A} (z : A) (B S L wL wG h : nat) (dL dG d5 : list A)
    (b j k : nat) :
  length dL = (B * S * wL)%nat -> length dG = (B * S * wG)%nat ->
  length d5 = (B * (L * h))%nat -> (wL + wG <= h)%nat ->
  (b < B)%nat -> (j < S + L)%nat -> (k < h)%nat ->
  nth_error
    (side_by_side B (S * h) (L * h)
       (concat (map (fun row => row ++ repeat z (h - (wL + wG)))
                    (chunks (B * S) (wL + wG) (side_by_side (B * S) wL wG dL dG))))
       d5)
    ((b * (S + L) + j) * h + k)
  = if (j <? S)%nat then
      if (k <? wL)%nat then nth_error dL ((b * S + j) * wL + k)
      else if (k <? wL + wG)%nat then nth_error dG ((b * S + j) * wG + (k - wL))
      else Some z
    else nth_error d5 ((b * L + (j - S)) * h + k).
Proof.
  intros HL HG H5 Hw Hb Hj Hk.
  pose proof (length_side_by_side (B * S) wL wG dL dG HL HG) as Hclip.
  pose proof (length_padded_rows z (B * S) (wL + wG) (h - (wL + wG)) _ Hclip) as Hpad.
  replace (wL + wG + (h - (wL + wG)))%nat with h in Hpad by lia.
  assert (Hjh : (j * h + k < (S + L) * h)%nat).
  { apply Nat.lt_le_trans with ((j + 1) * h)%nat; [lia|].
    apply Nat.mul_le_mono_r. lia. }
  replace ((b * (S + L) + j) * h + k)%nat
    with (b * (S * h + L * h) + (j * h + k))%nat by lia.
  rewrite side_by_side_index; [| lia | exact H5 | exact Hb | lia].
  destruct (j <? S)%nat eqn:Ej.
  - apply Nat.ltb_lt in Ej.
    assert (Hlt : (j * h + k < S * h)%nat).
    { apply Nat.lt_le_trans with ((j + 1) * h)%nat; [lia|].
      apply Nat.mul_le_mono_r. lia. }
    replace (j * h + k <? S * h)%nat with true by (symmetry; apply Nat.ltb_lt; exact Hlt).
    assert (Hrow : (b * S + j < B * S)%nat).
    { apply Nat.lt_le_trans with ((b + 1) * S)%nat; [lia|].
      apply Nat.mul_le_mono_r. lia. }
    replace (b * (S * h) + (j * h + k))%nat
      with ((b * S + j) * (wL + wG + (h - (wL + wG))) + k)%nat
      by (replace (wL + wG + (h - (wL + wG)))%nat with h by lia; lia).
    rewrite padded_rows_index; [| exact Hclip | exact Hrow | lia].
    destruct (k <? wL + wG)%nat eqn:Ek.
    + apply Nat.ltb_lt in Ek.
      rewrite side_by_side_index; [| exact HL | exact HG | exact Hrow | exact Ek].
      destruct (k <? wL)%nat; reflexivity.
    + apply Nat.ltb_ge in Ek.
      replace (k <? wL)%nat with false by (symmetry; apply Nat.ltb_ge; lia).
      reflexivity.
  - apply Nat.ltb_ge in Ej.
    assert (Hge : (S * h <= j * h + k)%nat).
    { apply Nat.le_trans with (j * h)%nat; [apply Nat.mul_le_mono_r; exact Ej | lia]. }
    replace (j * h + k <? S * h)%nat with false by (symmetry; apply Nat.ltb_ge; exact Hge).
    f_equal.
    assert (Hsub : (j * h = (j - S) * h + S * h)%nat).
    { rewrite <- Nat.mul_add_distr_r. f_equal. lia. }
    lia.
Qed.

End LayoutFacts.

Module EncoderLayout.
Import Encoder ListFacts TorchFacts EncoderFacts LayoutFacts.

Lemma run_length_without_override (c : Config) :
  fst (Validator.run c) = Ok tt -> i_know_what_i_am_doing c = false ->
  tokenizer_max_length (Validator.config (snd (Validator.run c)))
    = Some (match tokenizer_max_length c with
            | Some m => if (154 <? m)%Z then 154%Z else m
            | None => 154%Z
            end).
Proof.
  intros Hok Hflag. revert Hok. ValidatorFacts.run_validator.
  destruct (base_model_precision c =? "fp8-quanto")%string; simpl; [discriminate|].
  intros _. rewrite Hflag.
  destruct (tokenizer_max_length c) as [m|] eqn:Hm; simpl.
  - unfold Validator.t5_max_length. destruct (154 <? m)%Z; simpl;
      destruct (aspect_bucket_alignment c =? 64)%Z; simpl;
      destruct (sd3_t5_uncond_behaviour c); simpl; reflexivity || exact Hm.
  - destruct (aspect_bucket_alignment c =? 64)%Z; simpl;
      destruct (sd3_t5_uncond_behaviour c); simpl; reflexivity.
Qed.

Section Layout.
Context {A : Type} `{Scalar A}.

Lemma cat2_last_rank3_value (a b : Tensor A) (B S w1 w2 : nat) :
  shape a = [B; S; w1] -> shape b = [B; S; w2] ->
  cat2 (-1) a b
    = Ok (mkTensor [B; S; (w1 + w2)%nat] (side_by_side (B * S) w1 w2 (data a) (data b))).
Proof.
  intros Ea Eb. unfold cat2. rewrite Ea, Eb.
  cbn [length Nat.eqb norm_dim]. change (norm_dim (-1) 3) with (Some 2%nat).
  cbn [firstn skipn nth shape_eqb]. rewrite !Nat.eqb_refl. cbn [andb app].
  unfold side_by_side. cbn [numel fold_right]. now rewrite !Nat.mul_1_r.
Qed.

Lemma cat2_last_rank2_value (a b : Tensor A) (B w1 w2 : nat) :
  shape a = [B; w1] -> shape b = [B; w2] ->
  cat2 (-1) a b
    = Ok (mkTensor [B; (w1 + w2)%nat] (side_by_side B w1 w2 (data a) (data b))).
Proof.
  intros Ea Eb. unfold cat2. rewrite Ea, Eb.
  cbn [length Nat.eqb norm_dim]. change (norm_dim (-1) 2) with (Some 1%nat).
  cbn [firstn skipn nth shape_eqb]. rewrite !Nat.eqb_refl. cbn [andb app].
  unfold side_by_side. cbn [numel fold_right]. now rewrite !Nat.mul_1_r.
Qed.

Lemma cat2_seq_rank3_value (a b : Tensor A) (B S1 S2 h : nat) :
  shape a = [B; S1; h] -> shape b = [B; S2; h] ->
  cat2 (-2) a b
    = Ok (mkTensor [B; (S1 + S2)%nat; h]
            (side_by_side B (S1 * h) (S2 * h) (data a) (data b))).
Proof.
  intros Ea Eb. unfold cat2. rewrite Ea, Eb.
  cbn [length Nat.eqb norm_dim]. change (norm_dim (-2) 3) with (Some 1%nat).
  cbn [firstn skipn nth shape_eqb]. rewrite !Nat.eqb_refl. cbn [andb app].
  unfold side_by_side. cbn [numel fold_right]. now rewrite !Nat.mul_1_r.
Qed.

Lemma pad_last_rank3_value (t : Tensor A) (B S w h : nat) :
  shape t = [B; S; w] -> length (data t) = (B * S * w)%nat -> (w <= h)%nat ->
  pad_last (Z.of_nat h - Z.of_nat w) t
    = Ok (mkTensor [B; S; h]
            (concat (map (fun row => row ++ repeat zero (h - w))
                         (chunks (B * S) w (data t))))).
Proof.
  intros E Hlen Hw. unfold pad_last. rewrite E. simpl rev. cbv beta iota zeta.
  assert (Hsum : (Z.of_nat w + (Z.of_nat h - Z.of_nat w))%Z = Z.of_nat h) by lia.
  rewrite Hsum.
  assert (Hpos : (Z.of_nat h <? 0)%Z = false) by (apply Z.ltb_ge; lia).
  rewrite Hpos, Nat2Z.id.
  assert (Hk : Z.to_nat (Z.of_nat h - Z.of_nat w) = (h - w)%nat) by lia.
  rewrite Hk. cbn [rev app numel fold_right]. rewrite Nat.mul_1_r.
  f_equal. f_equal. f_equal. apply map_ext_in.
  intros row Hin. f_equal. apply firstn_all2.
  pose proof (chunks_width (B * S) w (data t) Hlen) as Hall.
  rewrite Forall_forall in Hall. rewrite (Hall row Hin). exact Hw.
Qed.

Lemma clip_helper_value (enc : TextEncoder A) (tk : Tokenizer) (prompts : list string)
    (len : Z) (before : list (Tensor A)) (layer final : Tensor A) (w : nat) :
  hidden_states (forward enc (input_ids (tokenizer_call tk prompts (Some len))) true)
    = Some (before ++ [layer; final]) ->
  shape layer = [length prompts; Z.to_nat len; w] -> contiguous layer ->
  prompts <> [] -> Z.to_nat len <> 0%nat ->
  _encode_sd3_prompt_with_clip enc tk (PromptList prompts) 1 len
    = Ok (mkTensor [length prompts; Z.to_nat len; w]
            (map (cast (enc_dtype enc)) (data layer)),
          first_output (forward enc (input_ids (tokenizer_call tk prompts (Some len))) true)).
Proof.
  intros Hhs Hlayer Hcont Hne Hlen.
  unfold contiguous in Hcont. rewrite Hlayer in Hcont.
  assert (Hraw : length (map (cast (enc_dtype enc)) (data layer))
                 = (length prompts * (Z.to_nat len * w))%nat).
  { rewrite length_map, Hcont. simpl. lia. }
  unfold _encode_sd3_prompt_with_clip. cbn [as_list].
  rewrite Hhs. cbn [rbind]. rewrite py_index_second_to_last. cbn [rbind].
  unfold to_dtype at 1. cbn [shape]. rewrite Hlayer. cbn [unpack3 rbind].
  unfold repeat_1_n_1. cbn [shape data to_dtype]. rewrite Hlayer. cbn [rbind].
  rewrite (repeat_once_data _ _ _ Hraw).
  rewrite (view_infer_last_rank3 _ (length prompts * 1) (Z.to_nat len) w).
  - cbn [rbind shape data]. now rewrite Nat.mul_1_r.
  - cbn [shape]. f_equal; [lia|]. f_equal. lia.
  - destruct prompts; [congruence|]. simpl length. lia.
Qed.

Lemma clip_hidden_layer_of_contract (enc : TextEncoder A) (tk : Tokenizer)
    (prompts : list string) (p w : nat) :
  clip_contract enc p w -> clip_outputs_contiguous enc ->
  exists before layer final,
    hidden_states (forward enc (input_ids (tokenizer_call tk prompts (Some 77%Z))) true)
      = Some (before ++ [layer; final]) /\
    clip_hidden_layer enc tk prompts = Ok layer /\
    shape layer = [length prompts; Z.to_nat 77; w] /\ contiguous layer /\
    shape (clip_pooled_output enc tk prompts) = [length prompts; p] /\
    contiguous (clip_pooled_output enc tk prompts).
Proof.
  intros Hc Hcont.
  destruct (Hc (input_ids (tokenizer_call tk prompts (Some 77%Z)))
              (length prompts) (Z.to_nat 77) eq_refl)
    as (Hpool & before & layer & final & Hhs & Hlayer).
  destruct (Hcont _ (input_ids_contiguous tk prompts (Some 77%Z))) as [Hpc Hlc].
  exists before, layer, final. split; [exact Hhs|].
  unfold clip_hidden_layer. rewrite Hhs. split; [apply py_index_second_to_last|].
  split; [exact Hlayer|]. split.
  - specialize (Hlc _ Hhs). rewrite Forall_forall in Hlc. apply Hlc.
    apply in_or_app. right. now left.
  - split; [exact Hpool | exact Hpc].
Qed.

Lemma t5_branch_value (self : SD3 A) (prompts : list string)
    (clipL clipG t5 : TextEncoder A) (tkL tkG tk5 : Tokenizer) (h L : nat) :
  text_encoders self = [clipL; clipG; t5] ->
  tokenizers self = [tkL; tkG; tk5] ->
  t5_contract t5 h ->
  tokenizer_max_length (config self) = Some (Z.of_nat L) -> (0 < L)%nat ->
  prompts <> [] ->
  exists out,
    t5_branch self prompts = Ok out /\ shape out = [length prompts; L; h] /\
    length (data out) = (length prompts * (L * h))%nat.
Proof.
  intros Henc Htok Hc Hlen HL Hne.
  assert (HeL : effective_length tk5 (Some (Z.of_nat L)) = L)
    by (cbn [effective_length]; apply Nat2Z.id).
  destruct (Hc (input_ids (tokenizer_call tk5 prompts (Some (Z.of_nat L))))
              (length prompts) L) as [Hout Hcont].
  { now rewrite <- HeL at 2. }
  { apply input_ids_contiguous. }
  unfold contiguous in Hcont. rewrite Hout in Hcont. simpl numel in Hcont.
  unfold t5_branch. rewrite Henc, Htok, Hlen.
  change (py_index [clipL; clipG; t5] (-1)) with (Ok t5).
  change (py_index [tkL; tkG; tk5] (-1)) with (Ok tk5). cbn [rbind].
  rewrite (t5_helper_value t5 tk5 prompts _ _ h Hc Hne) by (rewrite HeL; lia).
  rewrite HeL. eexists. split; [reflexivity|].
  destruct (zero_padding_tokens_of (config self)).
  - split; [reflexivity|]. cbn [data].
    rewrite length_zip_with, length_map.
    rewrite (length_flat_map_uniform _ h) by (intros; apply repeat_length).
    rewrite attention_mask_length, HeL.
    unfold t5_raw_output. rewrite Hcont. lia.
  - unfold to_dtype. cbn [shape data]. split; [exact Hout|].
    rewrite length_map. unfold t5_raw_output. rewrite Hcont. lia.
Qed.

(** The value of [_encode_prompts] on a valid configuration. *)
Lemma encode_prompts_value (self : SD3 A) (prompts : list string)
    (clipL clipG t5 : TextEncoder A) (tkL tkG tk5 : Tokenizer)
    (pL wL pG wG h L : nat) :
  text_encoders self = [clipL; clipG; t5] ->
  tokenizers self = [tkL; tkG; tk5] ->
  clip_contract clipL pL wL -> clip_contract clipG pG wG ->
  clip_outputs_contiguous clipL -> clip_outputs_contiguous clipG ->
  t5_contract t5 h ->
  tokenizer_max_length (config self) = Some (Z.of_nat L) -> (0 < L)%nat ->
  prompts <> [] -> (wL + wG <= h)%nat ->
  exists layerL layerG t5out,
    clip_hidden_layer clipL tkL prompts = Ok layerL /\
    clip_hidden_layer clipG tkG prompts = Ok layerG /\
    shape layerL = [length prompts; 77%nat; wL] /\
    shape layerG = [length prompts; 77%nat; wG] /\
    length (data layerL) = (length prompts * 77 * wL)%nat /\
    length (data layerG) = (length prompts * 77 * wG)%nat /\
    t5_branch self prompts = Ok t5out /\
    shape t5out = [length prompts; L; h] /\
    length (data t5out) = (length prompts * (L * h))%nat /\
    _encode_prompts self prompts
      = Ok (mkTensor [length prompts; (77 + L)%nat; h]
              (side_by_side (length prompts) (77 * h) (L * h)
                 (concat
                    (map (fun row => row ++ repeat zero (h - (wL + wG)))
                       (chunks (length prompts * 77) (wL + wG)
                          (side_by_side (length prompts * 77) wL wG
                             (map (cast (enc_dtype clipL)) (data layerL))
                             (map (cast (enc_dtype clipG)) (data layerG))))))
                 (data t5out)),
            mkTensor [length prompts; (pL + pG)%nat]
              (side_by_side (length prompts) pL pG
                 (data (clip_pooled_output clipL tkL prompts))
                 (data (clip_pooled_output clipG tkG prompts)))).
Proof.
  intros Henc Htok HcL HcG HkL HkG Ht5 Hlen HL Hne Hw.
  assert (H77 : Z.to_nat 77 <> 0%nat) by (rewrite Z2Nat.inj_pos; lia).
  destruct (clip_hidden_layer_of_contract clipL tkL prompts pL wL HcL HkL)
    as (bL & layerL & fL & HhsL & HlL & HsL & HctL & HpL & _).
  destruct (clip_hidden_layer_of_contract clipG tkG prompts pG wG HcG HkG)
    as (bG & layerG & fG & HhsG & HlG & HsG & HctG & HpG & _).
  destruct (t5_branch_value self prompts clipL clipG t5 tkL tkG tk5 h L
              Henc Htok Ht5 Hlen HL Hne) as (t5out & Hrun5 & Hs5 & Hlen5).
  assert (HlenL : length (data layerL) = (length prompts * 77 * wL)%nat).
  { unfold contiguous in HctL. rewrite HsL in HctL. rewrite HctL.
    change (Z.to_nat 77) with 77%nat. cbn [numel fold_right]. lia. }
  assert (HlenG : length (data layerG) = (length prompts * 77 * wG)%nat).
  { unfold contiguous in HctG. rewrite HsG in HctG. rewrite HctG.
    change (Z.to_nat 77) with 77%nat. cbn [numel fold_right]. lia. }
  exists layerL, layerG, t5out.
  repeat (split; [assumption|]).
  unfold _encode_prompts. rewrite Hrun5. rewrite Henc, Htok.
  cbn [firstn combine clip_loop].
  rewrite (clip_helper_value clipL tkL prompts 77%Z bL layerL fL wL HhsL HsL HctL Hne H77).
  cbn [rbind app].
  rewrite (clip_helper_value clipG tkG prompts 77%Z bG layerG fG wG HhsG HsG HctG Hne H77).
  cbn [rbind app cat shape length].
  change (norm_dim (-1) 3) with (Some 2%nat). cbn [rbind].
  rewrite (cat2_last_rank3_value _ _ (length prompts) (Z.to_nat 77) wL wG)
    by reflexivity.
  cbn [rbind]. fold (clip_pooled_output clipG tkG prompts).
  fold (clip_pooled_output clipL tkL prompts).
  rewrite HpG. cbn [length]. change (norm_dim (-1) 2) with (Some 1%nat). cbn [rbind].
  rewrite (cat2_last_rank2_value _ _ (length prompts) pL pG HpL HpG). cbn [rbind].
  rewrite (shape_last_rank3 t5out _ _ _ Hs5). cbn [rbind].
  rewrite (shape_last_rank3 _ (length prompts) (Z.to_nat 77) (wL + wG))
    by reflexivity.
  cbn [rbind].
  rewrite (pad_last_rank3_value _ (length prompts) (Z.to_nat 77) (wL + wG) h).
  - cbn [rbind cat data]. rewrite Hs5. cbn [length].
    change (norm_dim (-2) 3) with (Some 1%nat). cbn [rbind].
    rewrite (cat2_seq_rank3_value _ _ (length prompts) (Z.to_nat 77) L h)
      by (reflexivity || exact Hs5).
    reflexivity.
  - reflexivity.
  - cbn [data]. rewrite length_side_by_side.
    + reflexivity.
    + rewrite length_map. exact HlenL.
    + rewrite length_map. exact HlenG.
  - exact Hw.
Qed.

(** C1. For a valid configuration (the triple CLIP-L, CLIP-G, T5 with
    their tokenizers, encoders honouring their contracts and returning
    well-formed tensors, the two CLIP layers together no wider than the T5
    encoder, a positive T5 length [L]) and a non-empty list of prompts,
    [_encode_prompts] returns two well-formed tensors.  [prompt_embeds] has
    shape [len(prompts), 77 + L, h] with [h] the hidden width of the T5
    encoder; its first 77 rows are the CLIP branch zero-padded up to that
    width, that is the CLIP-L layer, then the CLIP-G layer, then a zero in
    every column from [wL + wG] up to [h]; its rows from 77 on are the rows of
    the T5 branch.  [pooled_prompt_embeds] has shape [len(prompts), pL + pG]
    and is the concatenation of the two CLIP pooled outputs, so nothing of
    the T5 encoder, its tokenizer or the configuration enters it. *)
Theorem encode_prompts_shape_and_padding (self : SD3 A) (prompts : list string)
    (clipL clipG t5 : TextEncoder A) (tkL tkG tk5 : Tokenizer)
    (pL wL pG wG h L : nat) :
  text_encoders self = [clipL; clipG; t5] ->
  tokenizers self = [tkL; tkG; tk5] ->
  clip_contract clipL pL wL -> clip_contract clipG pG wG ->
  clip_outputs_contiguous clipL -> clip_outputs_contiguous clipG ->
  t5_contract t5 h ->
  tokenizer_max_length (config self) = Some (Z.of_nat L) -> (0 < L)%nat ->
  prompts <> [] -> (wL + wG <= h)%nat ->
  exists pe pooled layerL layerG t5out,
    _encode_prompts self prompts = Ok (pe, pooled) /\
    shape pe = [length prompts; (77 + L)%nat; h] /\ contiguous pe /\
    shape pooled = [length prompts; (pL + pG)%nat] /\ contiguous pooled /\
    cat (-1) [clip_pooled_output clipL tkL prompts; clip_pooled_output clipG tkG prompts]
      = Ok pooled /\
    clip_hidden_layer clipL tkL prompts = Ok layerL /\
    clip_hidden_layer clipG tkG prompts = Ok layerG /\
    t5_branch self prompts = Ok t5out /\
    (forall b j k,
       (b < length prompts)%nat -> (j < 77)%nat -> (k < h)%nat ->
       get3 pe b j k
         = if (k <? wL)%nat then get3 (to_dtype (enc_dtype clipL) layerL) b j k
           else if (k <? wL + wG)%nat
                then get3 (to_dtype (enc_dtype clipG) layerG) b j (k - wL)
                else Some zero) /\
    (forall b j k,
       (b < length prompts)%nat -> (j < L)%nat -> (k < h)%nat ->
       get3 pe b (77 + j) k = get3 t5out b j k).
Proof.
  intros Henc Htok HcL HcG HkL HkG Ht5 Hlen HL Hne Hw.
  destruct (encode_prompts_value self prompts clipL clipG t5 tkL tkG tk5
              pL wL pG wG h L Henc Htok HcL HcG HkL HkG Ht5 Hlen HL Hne Hw)
    as (layerL & layerG & t5out & HlL & HlG & HsL & HsG & HlenL & HlenG
        & Hrun5 & Hs5 & Hlen5 & Hrun).
  destruct (clip_hidden_layer_of_contract clipL tkL prompts pL wL HcL HkL)
    as (_ & _ & _ & _ & _ & _ & _ & HpL & HpcL).
  destruct (clip_hidden_layer_of_contract clipG tkG prompts pG wG HcG HkG)
    as (_ & _ & _ & _ & _ & _ & _ & HpG & HpcG).
  eexists. eexists. exists layerL, layerG, t5out.
  split; [exact Hrun|]. cbn [shape]. split; [reflexivity|]. split.
  { unfold contiguous. cbn [shape data].
    rewrite length_side_by_side; [cbn [numel fold_right]; lia | | exact Hlen5].
    pose proof (length_side_by_side (length prompts * 77) wL wG
                  (map (cast (enc_dtype clipL)) (data layerL))
                  (map (cast (enc_dtype clipG)) (data layerG))) as Hclip.
    rewrite !length_map in Hclip. specialize (Hclip HlenL HlenG).
    rewrite (length_padded_rows zero (length prompts * 77) (wL + wG)
               (h - (wL + wG)) _ Hclip).
    replace (wL + wG + (h - (wL + wG)))%nat with h by lia. lia. }
  split; [reflexivity|]. split.
  { unfold contiguous in *. cbn [shape data]. rewrite HpL in HpcL. rewrite HpG in HpcG.
    cbn [numel fold_right] in *.
    rewrite length_side_by_side; [lia | lia | lia]. }
  split.
  { cbn [cat]. rewrite HpG. cbn [length].
    change (norm_dim (-1) 2) with (Some 1%nat). cbn [rbind].
    apply (cat2_last_rank2_value _ _ (length prompts) pL pG HpL HpG). }
  split; [exact HlL|]. split; [exact HlG|]. split; [exact Hrun5|]. split.
  - intros b j k Hb Hj Hk. unfold get3, to_dtype. cbn [shape data].
    rewrite HsL, HsG.
    rewrite (embedding_layout_index zero (length prompts) 77 L wL wG h);
      try assumption; try (rewrite length_map; assumption); try lia.
    replace (j <? 77)%nat with true by (symmetry; apply Nat.ltb_lt; lia).
    reflexivity.
  - intros b j k Hb Hj Hk. unfold get3. cbn [shape data]. rewrite Hs5.
    rewrite (embedding_layout_index zero (length prompts) 77 L wL wG h);
      try assumption; try (rewrite length_map; assumption); try lia.
    replace (77 + j <? 77)%nat with false by (symmetry; apply Nat.ltb_ge; lia).
    replace (77 + j - 77)%nat with j by lia. reflexivity.
Qed.

(** X13. The layout of [prompt_embeds], element by element: in the first
    77 rows of every prompt the columns hold the CLIP-L layer, then the CLIP-G
    layer (each cast to its encoder's precision), then zeros up to the T5
    width; the rows from 77 on are the rows of the T5 branch. *)
Theorem encode_prompts_layout (self : SD3 A) (prompts : list string)
    (clipL clipG t5 : TextEncoder A) (tkL tkG tk5 : Tokenizer)
    (pL wL pG wG h L : nat) :
  text_encoders self = [clipL; clipG; t5] ->
  tokenizers self = [tkL; tkG; tk5] ->
  clip_contract clipL pL wL -> clip_contract clipG pG wG ->
  clip_outputs_contiguous clipL -> clip_outputs_contiguous clipG ->
  t5_contract t5 h ->
  tokenizer_max_length (config self) = Some (Z.of_nat L) -> (0 < L)%nat ->
  prompts <> [] -> (wL + wG <= h)%nat ->
  exists pe pooled layerL layerG t5out,
    _encode_prompts self prompts = Ok (pe, pooled) /\
    clip_hidden_layer clipL tkL prompts = Ok layerL /\
    clip_hidden_layer clipG tkG prompts = Ok layerG /\
    t5_branch self prompts = Ok t5out /\
    forall b j k,
      (b < length prompts)%nat -> (j < 77 + L)%nat -> (k < h)%nat ->
      get3 pe b j k
        = if (j <? 77)%nat then
            if (k <? wL)%nat then get3 (to_dtype (enc_dtype clipL) layerL) b j k
            else if (k <? wL + wG)%nat
                 then get3 (to_dtype (enc_dtype clipG) layerG) b j (k - wL)
                 else Some zero
          else get3 t5out b (j - 77) k.
Proof.
  intros Henc Htok HcL HcG HkL HkG Ht5 Hlen HL Hne Hw.
  destruct (encode_prompts_value self prompts clipL clipG t5 tkL tkG tk5
              pL wL pG wG h L Henc Htok HcL HcG HkL HkG Ht5 Hlen HL Hne Hw)
    as (layerL & layerG & t5out & HlL & HlG & HsL & HsG & HlenL & HlenG
        & Hrun5 & Hs5 & Hlen5 & Hrun).
  eexists. eexists. exists layerL, layerG, t5out.
  split; [exact Hrun|]. split; [exact HlL|]. split; [exact HlG|].
  split; [exact Hrun5|].
  intros b j k Hb Hj Hk. unfold get3, to_dtype. cbn [shape data].
  rewrite HsL, HsG, Hs5.
  apply (embedding_layout_index zero (length prompts) 77 L wL wG h);
    try assumption; rewrite length_map; assumption.
Qed.

(** X14. Both tensors [_encode_prompts] returns are well formed: they hold
    as many elements as their shape says. *)
Theorem encode_prompts_contiguous (self : SD3 A) (prompts : list string)
    (clipL clipG t5 : TextEncoder A) (tkL tkG tk5 : Tokenizer)
    (pL wL pG wG h L : nat) :
  text_encoders self = [clipL; clipG; t5] ->
  tokenizers self = [tkL; tkG; tk5] ->
  clip_contract clipL pL wL -> clip_contract clipG pG wG ->
  clip_outputs_contiguous clipL -> clip_outputs_contiguous clipG ->
  t5_contract t5 h ->
  tokenizer_max_length (config self) = Some (Z.of_nat L) -> (0 < L)%nat ->
  prompts <> [] -> (wL + wG <= h)%nat ->
  exists pe pooled,
    _encode_prompts self prompts = Ok (pe, pooled) /\
    contiguous pe /\ contiguous pooled.
Proof.
  intros Henc Htok HcL HcG HkL HkG Ht5 Hlen HL Hne Hw.
  destruct (encode_prompts_value self prompts clipL clipG t5 tkL tkG tk5
              pL wL pG wG h L Henc Htok HcL HcG HkL HkG Ht5 Hlen HL Hne Hw)
    as (layerL & layerG & t5out & HlL & HlG & HsL & HsG & HlenL & HlenG
        & Hrun5 & Hs5 & Hlen5 & Hrun).
  destruct (clip_hidden_layer_of_contract clipL tkL prompts pL wL HcL HkL)
    as (_ & _ & _ & _ & _ & _ & _ & HpL & HpcL).
  destruct (clip_hidden_layer_of_contract clipG tkG prompts pG wG HcG HkG)
    as (_ & _ & _ & _ & _ & _ & _ & HpG & HpcG).
  eexists. eexists. split; [exact Hrun|]. unfold contiguous. cbn [shape data]. split.
  - rewrite length_side_by_side; [cbn [numel fold_right]; lia | | exact Hlen5].
    pose proof (length_side_by_side (length prompts * 77) wL wG
                  (map (cast (enc_dtype clipL)) (data layerL))
                  (map (cast (enc_dtype clipG)) (data layerG))) as Hclip.
    rewrite !length_map in Hclip. specialize (Hclip HlenL HlenG).
    rewrite (length_padded_rows zero (length prompts * 77) (wL + wG)
               (h - (wL + wG)) _ Hclip).
    replace (wL + wG + (h - (wL + wG)))%nat with h by lia. lia.
  - unfold contiguous in HpcL, HpcG. rewrite HpL in HpcL. rewrite HpG in HpcG.
    cbn [numel fold_right] in *.
    rewrite length_side_by_side; [lia | lia | lia].
Qed.

Lemma view_infer_last_regroup (t : Tensor A) (B n S W : nat) :
  shape t = [B; (n * S)%nat; W] -> (B * n * S)%nat <> 0%nat ->
  view_infer_last (B * n) S t = Ok (mkTensor [(B * n)%nat; S; W] (data t)).
Proof.
  intros E Hne. unfold view_infer_last. rewrite E.
  apply Nat.eqb_neq in Hne as Hne'. rewrite Hne'.
  assert (Hn : numel [B; (n * S)%nat; W] = (W * (B * n * S))%nat) by (simpl; lia).
  rewrite Hn, Nat.Div0.mod_mul, Nat.div_mul by exact Hne. reflexivity.
Qed.

(** X19. The CLIP helper for [n] images per prompt repeats the sequence
    embedding only: its batch becomes [B * n], while the pooled output is
    returned as the encoder gave it, with batch [B]. *)
Theorem clip_helper_repeats_sequence_only (enc : TextEncoder A) (tk : Tokenizer)
    (prompts : list string) (n p w : nat) :
  clip_contract enc p w -> prompts <> [] -> (0 < n)%nat ->
  exists embeds pooled,
    _encode_sd3_prompt_with_clip enc tk (PromptList prompts) n 77%Z = Ok (embeds, pooled) /\
    shape embeds = [(length prompts * n)%nat; 77%nat; w] /\
    pooled = clip_pooled_output enc tk prompts /\
    shape pooled = [length prompts; p].
Proof.
  intros Hc Hne Hn.
  destruct (Hc (input_ids (tokenizer_call tk prompts (Some 77%Z)))
              (length prompts) (Z.to_nat 77) eq_refl)
    as (Hpool & before & layer & final & Hhs & Hlayer).
  unfold _encode_sd3_prompt_with_clip. cbn [as_list].
  rewrite Hhs. cbn [rbind]. rewrite py_index_second_to_last. cbn [rbind].
  unfold to_dtype at 1. cbn [shape]. rewrite Hlayer. cbn [unpack3 rbind].
  unfold repeat_1_n_1. cbn [shape data to_dtype]. rewrite Hlayer. cbn [rbind].
  rewrite (view_infer_last_regroup _ (length prompts) n (Z.to_nat 77) w).
  - cbn [rbind]. eexists. eexists. split; [reflexivity|].
    split; [reflexivity|]. split; [reflexivity | exact Hpool].
  - reflexivity.
  - destruct prompts; [congruence|]. change (Z.to_nat 77) with 77%nat.
    simpl length. lia.
Qed.

(** X20. The T5 helper for [n] images per prompt: without zeroing it
    returns a batch of [B * n]; with zeroing, two or more prompts and two or
    more images per prompt it raises [RuntimeError], because the attention
    mask keeps its batch of [B] and cannot be expanded to [B * n]. *)
Theorem t5_helper_mask_is_not_repeated (enc : TextEncoder A) (tk : Tokenizer)
    (prompts : list string) (n h L : nat) :
  t5_contract enc h -> (0 < L)%nat -> (0 < n)%nat -> prompts <> [] ->
  (exists out,
     _encode_sd3_prompt_with_t5 enc tk (PromptList prompts) n false (Some (Z.of_nat L))
       = Ok out /\
     shape out = [(length prompts * n)%nat; L; h]) /\
  ((2 <= n)%nat -> (2 <= length prompts)%nat ->
   _encode_sd3_prompt_with_t5 enc tk (PromptList prompts) n true (Some (Z.of_nat L))
     = Raise RuntimeError).
Proof.
  intros Hc HL Hn Hne.
  assert (HeL : effective_length tk (Some (Z.of_nat L)) = L)
    by (cbn [effective_length]; apply Nat2Z.id).
  destruct (Hc (input_ids (tokenizer_call tk prompts (Some (Z.of_nat L))))
              (length prompts) L) as [Hout _].
  { now rewrite <- HeL at 2. }
  { apply input_ids_contiguous. }
  assert (Hview : forall zeroing,
            _encode_sd3_prompt_with_t5 enc tk (PromptList prompts) n zeroing
              (Some (Z.of_nat L))
            = let pe := mkTensor [(length prompts * n)%nat; L; h]
                          (concat (map (fun c => concat (repeat c n))
                             (chunks (length prompts) (L * h)
                                (map (cast (enc_dtype enc))
                                   (data (t5_raw_output enc tk prompts
                                            (Some (Z.of_nat L)))))))) in
              if zeroing then
                rbind (unsqueeze (-1)
                         (attention_mask (tokenizer_call tk prompts (Some (Z.of_nat L)))))
                      (fun m => rbind (expand (shape pe) m) (fun m => mul_mask pe m))
              else Ok pe).
  { intros zeroing. unfold _encode_sd3_prompt_with_t5. cbn [as_list].
    fold (t5_raw_output enc tk prompts (Some (Z.of_nat L))).
    unfold to_dtype at 1. cbn [shape].
    unfold t5_raw_output at 1. rewrite Hout. cbn [unpack3 rbind].
    unfold repeat_1_n_1. cbn [shape data to_dtype].
    unfold t5_raw_output at 1. rewrite Hout. cbn [rbind].
    rewrite (view_infer_last_regroup _ (length prompts) n L h).
    - reflexivity.
    - reflexivity.
    - destruct prompts; [congruence|]. simpl length. lia. }
  split.
  - rewrite Hview. cbv zeta. eexists. split; reflexivity.
  - intros Hn2 HB2. rewrite Hview. cbv zeta.
    rewrite (unsqueeze_last_rank2 _ (length prompts) (effective_length tk (Some (Z.of_nat L))))
      by reflexivity.
    rewrite HeL. cbn [rbind shape]. unfold expand.
    cbn [shape data length Nat.leb Nat.sub repeat app expand_data].
    destruct (map_option_total
                (expand_data [L; 1%nat] [L; h])
                (chunks (length prompts) (numel [L; 1%nat])
                   (data (attention_mask (tokenizer_call tk prompts (Some (Z.of_nat L)))))))
      as [cs Hcs].
    { intros d. apply expand_data_total.
      constructor; [now left|]. constructor; [now right | constructor]. }
    cbn [expand_data] in Hcs. rewrite Hcs.
    replace (length prompts =? length prompts * n)%nat with false
      by (symmetry; apply Nat.eqb_neq; nia).
    replace (length prompts =? 1)%nat with false
      by (symmetry; apply Nat.eqb_neq; lia).
    reflexivity.
Qed.

(** The value of the T5 branch when the mask is applied. *)
Lemma t5_branch_masked (self : SD3 A) (prompts : list string)
    (clipL clipG t5 : TextEncoder A) (tkL tkG tk5 : Tokenizer) (h L : nat) :
  text_encoders self = [clipL; clipG; t5] ->
  tokenizers self = [tkL; tkG; tk5] ->
  t5_contract t5 h ->
  tokenizer_max_length (config self) = Some (Z.of_nat L) -> (0 < L)%nat ->
  prompts <> [] ->
  t5_padding (config self) = Some "zero"%string ->
  t5_branch self prompts
    = Ok (mkTensor [length prompts; L; h]
            (zip_with (fun x m => mul x (of_int m))
               (map (cast (enc_dtype t5))
                  (data (t5_raw_output t5 tk5 prompts (Some (Z.of_nat L)))))
               (flat_map (fun m => repeat m h)
                  (data (attention_mask
                           (tokenizer_call tk5 prompts (Some (Z.of_nat L)))))))).
Proof.
  intros Henc Htok Hc Hlen HL Hne Hpad.
  assert (HeL : effective_length tk5 (Some (Z.of_nat L)) = L)
    by (cbn [effective_length]; apply Nat2Z.id).
  unfold t5_branch. rewrite Henc, Htok, Hlen.
  change (py_index [clipL; clipG; t5] (-1)) with (Ok t5).
  change (py_index [tkL; tkG; tk5] (-1)) with (Ok tk5). cbn [rbind].
  rewrite (t5_helper_value t5 tk5 prompts _ _ h Hc Hne) by (rewrite HeL; lia).
  now rewrite (proj2 (zero_padding_tokens_of_true (config self)) Hpad), HeL.
Qed.

(** X15. With [t5_padding] set to "zero" the masking of the T5 helper
    survives the concatenation.  In the returned [prompt_embeds] itself, row
    [77 + j] of prompt [b], for every [j] from the token count of the prompt
    on, holds the product of the encoder value (cast to the encoder's dtype)
    with the mask entry 0: a zero (of either sign) where that value is
    finite, a NaN where it is infinite or NaN. *)
Theorem encode_prompts_padding_is_masked `{!MaskArith A} (self : SD3 A)
    (prompts : list string)
    (clipL clipG t5 : TextEncoder A) (tkL tkG tk5 : Tokenizer)
    (pL wL pG wG h L : nat) :
  text_encoders self = [clipL; clipG; t5] ->
  tokenizers self = [tkL; tkG; tk5] ->
  clip_contract clipL pL wL -> clip_contract clipG pG wG ->
  clip_outputs_contiguous clipL -> clip_outputs_contiguous clipG ->
  t5_contract t5 h ->
  tokenizer_max_length (config self) = Some (Z.of_nat L) -> (0 < L)%nat ->
  prompts <> [] -> (wL + wG <= h)%nat ->
  t5_padding (config self) = Some "zero"%string ->
  exists pe pooled,
    _encode_prompts self prompts = Ok (pe, pooled) /\
    forall b p j k,
      nth_error prompts b = Some p ->
      (token_count tk5 L p <= j < L)%nat -> (k < h)%nat ->
      exists x,
        get3 (to_dtype (enc_dtype t5)
                (t5_raw_output t5 tk5 prompts (Some (Z.of_nat L)))) b j k = Some x /\
        get3 pe b (77 + j) k = Some (mul x (of_int 0%Z)) /\
        (if is_finite x then is_zero (mul x (of_int 0%Z))
         else is_nan (mul x (of_int 0%Z))) = true.
Proof.
  intros Henc Htok HcL HcG HkL HkG Ht5 Hlen HL Hne Hw Hpad.
  destruct (encode_prompts_value self prompts clipL clipG t5 tkL tkG tk5
              pL wL pG wG h L Henc Htok HcL HcG HkL HkG Ht5 Hlen HL Hne Hw)
    as (layerL & layerG & t5out & HlL & HlG & HsL & HsG & HlenL & HlenG
        & Hrun5 & Hs5 & Hlen5 & Hrun).
  assert (HeL : effective_length tk5 (Some (Z.of_nat L)) = L)
    by (cbn [effective_length]; apply Nat2Z.id).
  eexists. eexists. split; [exact Hrun|].
  intros b p j k Hp Hj Hk.
  assert (Hb : (b < length prompts)%nat) by (apply nth_error_Some; congruence).
  destruct (masked_entry t5 tk5 prompts (Some (Z.of_nat L)) h L b j k p
              Ht5 HeL Hp (proj2 Hj) Hk) as (x & Hx & Hprod).
  pose proof (t5_branch_masked self prompts clipL clipG t5 tkL tkG tk5 h L
                Henc Htok Ht5 Hlen HL Hne Hpad) as Hval.
  rewrite Hrun5 in Hval.
  apply (f_equal (fun r => match r with Ok t => t | Raise _ => t5out end)) in Hval.
  cbv beta iota in Hval. rewrite <- Hval in Hprod.
  replace (j <? token_count tk5 L p)%nat with false in Hprod
    by (symmetry; apply Nat.ltb_ge; lia).
  exists x. split; [exact Hx|]. split.
  - unfold get3 at 1. cbn [shape data].
    rewrite (embedding_layout_index zero (length prompts) 77 L wL wG h);
      try assumption; try (rewrite length_map; assumption); try lia.
    replace (77 + j <? 77)%nat with false by (symmetry; apply Nat.ltb_ge; lia).
    replace (77 + j - 77)%nat with j by lia.
    unfold get3 in Hprod. rewrite Hs5 in Hprod. exact Hprod.
  - destruct (is_finite x) eqn:Ef.
    + now apply mul_of_int_0_finite.
    + now apply mul_of_int_0_not_finite.
Qed.

(** X16. Encoding, storing and converting for the pipeline, composed: the
    stored pooled tensor loses its batch dimension only for a single prompt,
    and the pipeline receives [prompt_embeds] of rank 4, [1, B, 77 + L, h],
    with the elements untouched. *)
Theorem encode_store_pipeline_shapes (self : SD3 A) (prompts : list string)
    (clipL clipG t5 : TextEncoder A) (tkL tkG tk5 : Tokenizer)
    (pL wL pG wG h L : nat) :
  text_encoders self = [clipL; clipG; t5] ->
  tokenizers self = [tkL; tkG; tk5] ->
  clip_contract clipL pL wL -> clip_contract clipG pG wG ->
  clip_outputs_contiguous clipL -> clip_outputs_contiguous clipG ->
  t5_contract t5 h ->
  tokenizer_max_length (config self) = Some (Z.of_nat L) -> (0 < L)%nat ->
  prompts <> [] -> (wL + wG <= h)%nat ->
  exists pe pooled stored out,
    _encode_prompts self prompts = Ok (pe, pooled) /\
    _format_text_embedding (pe, pooled) = Ok stored /\
    convert_text_embed_for_pipeline stored = Ok out /\
    shape (prompt_embeds stored) = [length prompts; (77 + L)%nat; h] /\
    shape (pooled_prompt_embeds stored)
      = (if (length prompts =? 1)%nat then [(pL + pG)%nat]
         else [length prompts; (pL + pG)%nat]) /\
    shape (prompt_embeds out) = [1%nat; length prompts; (77 + L)%nat; h] /\
    shape (pooled_prompt_embeds out)
      = (if (length prompts =? 1)%nat then [1%nat; (pL + pG)%nat]
         else [1%nat; length prompts; (pL + pG)%nat]) /\
    data (prompt_embeds out) = data pe /\
    data (pooled_prompt_embeds out) = data pooled.
Proof.
  intros Henc Htok HcL HcG HkL HkG Ht5 Hlen HL Hne Hw.
  destruct (encode_prompts_value self prompts clipL clipG t5 tkL tkG tk5
              pL wL pG wG h L Henc Htok HcL HcG HkL HkG Ht5 Hlen HL Hne Hw)
    as (layerL & layerG & t5out & _ & _ & _ & _ & _ & _ & _ & _ & _ & Hrun).
  eexists. eexists. eexists. eexists. split; [exact Hrun|].
  unfold _format_text_embedding, convert_text_embed_for_pipeline.
  rewrite squeeze_0. cbn [rbind shape data]. split; [reflexivity|].
  cbn [prompt_embeds pooled_prompt_embeds]. rewrite !unsqueeze_0. cbn [rbind].
  split; [reflexivity|]. cbn [prompt_embeds pooled_prompt_embeds shape data].
  split; [reflexivity|].
  destruct (length prompts) as [|[|n]]; cbn [Nat.eqb shape data]; repeat split.
Qed.

(** X18. Storing an embedding and converting it for the negative pipeline
    gives, under the negative keys, the very tensors the positive conversion
    gives; the [prompt] argument plays no part. *)
Theorem storage_then_negative_pipeline_roundtrip (pe pooled : Tensor A) (prompt : string) :
  exists stored out,
    _format_text_embedding (pe, pooled) = Ok stored /\
    convert_negative_text_embed_for_pipeline stored prompt = Ok out /\
    convert_text_embed_for_pipeline stored
      = Ok (mkEmbedding (negative_prompt_embeds out) (negative_pooled_prompt_embeds out)) /\
    negative_prompt_embeds out = mkTensor (1%nat :: shape pe) (data pe) /\
    data (negative_pooled_prompt_embeds out) = data pooled.
Proof.
  unfold _format_text_embedding, convert_negative_text_embed_for_pipeline,
    convert_text_embed_for_pipeline.
  rewrite squeeze_0. cbn [rbind].
  eexists. eexists. split; [reflexivity|].
  cbn [prompt_embeds pooled_prompt_embeds]. rewrite !unsqueeze_0. cbn [rbind].
  split; [reflexivity|]. cbn [negative_prompt_embeds negative_pooled_prompt_embeds].
  split; [reflexivity|]. split; [reflexivity|].
  destruct pooled as [sh d]. cbn [shape data].
  destruct sh as [|[|[|n]] rest]; reflexivity.
Qed.

(** X17. Validation and encoding, composed: without the override flag, and
    with a supplied length that is positive or unset, the encoder run on the
    validated configuration returns [prompt_embeds] of between 78 and 231
    rows; an unset length gives 231. *)
Theorem validated_prompt_embeds_length_bounded (self : SD3 A) (prompts : list string)
    (clipL clipG t5 : TextEncoder A) (tkL tkG tk5 : Tokenizer)
    (pL wL pG wG h : nat) :
  text_encoders self = [clipL; clipG; t5] ->
  tokenizers self = [tkL; tkG; tk5] ->
  clip_contract clipL pL wL -> clip_contract clipG pG wG ->
  clip_outputs_contiguous clipL -> clip_outputs_contiguous clipG ->
  t5_contract t5 h -> (wL + wG <= h)%nat -> prompts <> [] ->
  fst (Validator.run (config self)) = Ok tt ->
  i_know_what_i_am_doing (config self) = false ->
  (forall n, tokenizer_max_length (config self) = Some n -> (0 < n)%Z) ->
  exists pe pooled L,
    _encode_prompts (validated self) prompts = Ok (pe, pooled) /\
    shape pe = [length prompts; (77 + L)%nat; h] /\
    (1 <= L <= 154)%nat /\
    (tokenizer_max_length (config self) = None -> L = 154%nat).
Proof.
  intros Henc Htok HcL HcG HkL HkG Ht5 Hw Hne Hok Hflag Hpos.
  pose proof (run_length_without_override (config self) Hok Hflag) as Hlen.
  set (n := match tokenizer_max_length (config self) with
            | Some m => if (154 <? m)%Z then 154%Z else m
            | None => 154%Z
            end) in Hlen.
  assert (Hn : (0 < n <= 154)%Z).
  { subst n. destruct (tokenizer_max_length (config self)) as [m|] eqn:Hm; [|lia].
    specialize (Hpos m eq_refl). destruct (154 <? m)%Z eqn:E; [lia|].
    apply Z.ltb_ge in E. lia. }
  assert (Hlen' : tokenizer_max_length (config (validated self))
                  = Some (Z.of_nat (Z.to_nat n))).
  { unfold validated. cbn [config]. rewrite Hlen. f_equal. lia. }
  destruct (encode_prompts_value (validated self) prompts clipL clipG t5 tkL tkG tk5
              pL wL pG wG h (Z.to_nat n))
    as (layerL & layerG & t5out & _ & _ & _ & _ & _ & _ & _ & _ & _ & Hrun);
    try assumption; try lia.
  eexists. eexists. exists (Z.to_nat n). split; [exact Hrun|].
  split; [reflexivity|]. split; [lia|].
  intros Hnone. unfold n. rewrite Hnone. reflexivity.
Qed.

End Layout.

Lemma numel_app (s1 s2 : list nat) : numel (s1 ++ s2) = (numel s1 * numel s2)%nat.
Proof.
  induction s1 as [|d s1 IH]; simpl; [lia|]. rewrite IH. lia.
Qed.

Lemma toy_layer_contiguous (ids : Tensor Z) (w : nat) (offset : Z) :
  contiguous ids -> contiguous (toy_layer ids w offset).
Proof.
  unfold contiguous, toy_layer. cbn [shape data]. intros Hc.
  rewrite (length_flat_map_uniform _ w)
    by (intros; now rewrite length_map, length_seq).
  rewrite numel_app, Hc. simpl. lia.
Qed.

Lemma toy_clip_outputs_contiguous (p w : nat) : clip_outputs_contiguous (toy_clip p w).
Proof.
  intros ids Hc. cbn [toy_clip forward first_output hidden_states]. split.
  - unfold contiguous. cbn [shape data].
    rewrite (length_flat_map_uniform _ p) by (intros; apply repeat_length).
    rewrite length_chunks. simpl. lia.
  - intros layers [= <-]. repeat constructor; now apply toy_layer_contiguous.
Qed.

Lemma ieee_layer_contiguous (ids : Tensor Z) (w : nat) (value : Z -> nat -> spec_float) :
  contiguous ids -> contiguous (ieee_layer ids w value).
Proof.
  unfold contiguous, ieee_layer. cbn [shape data]. intros Hc.
  rewrite (length_flat_map_uniform _ w)
    by (intros; now rewrite length_map, length_seq).
  rewrite numel_app, Hc. simpl. lia.
Qed.

Lemma ieee_clip_contract (p w : nat) : clip_contract (ieee_clip p w) p w.
Proof.
  intros ids B S E. cbn [ieee_clip forward first_output hidden_states shape].
  rewrite E. split; [reflexivity|].
  eexists [_], _, _. split; [reflexivity|]. unfold ieee_layer. cbn [shape]. now rewrite E.
Qed.

Lemma ieee_clip_outputs_contiguous (p w : nat) : clip_outputs_contiguous (ieee_clip p w).
Proof.
  intros ids Hc. cbn [ieee_clip forward first_output hidden_states]. split.
  - unfold contiguous. cbn [shape data].
    rewrite (length_flat_map_uniform _ p) by (intros; apply repeat_length).
    rewrite length_chunks. simpl. lia.
  - intros layers [= <-]. repeat constructor; now apply ieee_layer_contiguous.
Qed.

Lemma encode_prompts_shape_and_padding_witness :
  exists pe pooled,
    _encode_prompts (ieee_sd3 overflowing (Some "zero"%string) (Some 4%Z))
      ["a cat"; "hi"]%string = Ok (pe, pooled) /\
    shape pe = [2; 81; 6]%nat /\ shape pooled = [2; 5]%nat /\
    get3 pe 1 0 5 = Some (S754_zero false) /\
    get3 pe 1 76 4 = Some (float_of_int 2).
Proof.
  destruct (encode_prompts_shape_and_padding
              (ieee_sd3 overflowing (Some "zero"%string) (Some 4%Z))
              ["a cat"; "hi"]%string (ieee_clip 2 2) (ieee_clip 3 3)
              (ieee_t5 6 overflowing)
              toy_tokenizer toy_tokenizer toy_tokenizer 2 2 3 3 6 4
              eq_refl eq_refl (ieee_clip_contract 2 2) (ieee_clip_contract 3 3)
              (ieee_clip_outputs_contiguous 2 2) (ieee_clip_outputs_contiguous 3 3)
              (ieee_t5_contract 6 overflowing) eq_refl)
    as (pe & pooled & layerL & layerG & t5out & Hrun & Hspe & _ & Hspo & _ & _
        & HlL & HlG & _ & Hclip & _).
  - lia.
  - discriminate.
  - lia.
  - exists pe, pooled. split; [exact Hrun|]. split; [exact Hspe|]. split; [exact Hspo|].
    split.
    + rewrite (Hclip 1%nat 0%nat 5%nat) by (simpl; lia). reflexivity.
    + rewrite (Hclip 1%nat 76%nat 4%nat) by (simpl; lia).
      vm_compute in HlG. injection HlG as <-. vm_compute. reflexivity.
Defined.

Lemma encode_prompts_layout_witness :
  exists pe pooled,
    _encode_prompts (toy_sd3 (Some "zero"%string) (Some 4%Z)) ["a cat"; "hi"]%string
      = Ok (pe, pooled) /\
    get3 pe 1 0 5 = Some 0%Z.
Proof.
  destruct (encode_prompts_layout (toy_sd3 (Some "zero"%string) (Some 4%Z))
              ["a cat"; "hi"]%string (toy_clip 2 2) (toy_clip 3 3) (toy_t5 6)
              toy_tokenizer toy_tokenizer toy_tokenizer 2 2 3 3 6 4
              eq_refl eq_refl (toy_clip_contract 2 2) (toy_clip_contract 3 3)
              (toy_clip_outputs_contiguous 2 2) (toy_clip_outputs_contiguous 3 3)
              (toy_t5_contract 6) eq_refl)
    as (pe & pooled & layerL & layerG & t5out & Hrun & _ & _ & _ & Hlayout).
  - lia.
  - discriminate.
  - lia.
  - exists pe, pooled. split; [exact Hrun|].
    rewrite (Hlayout 1%nat 0%nat 5%nat) by (simpl; lia). reflexivity.
Defined.

Lemma encode_prompts_contiguous_witness :
  exists pe pooled,
    _encode_prompts (toy_sd3 (Some "zero"%string) (Some 4%Z)) ["a cat"; "hi"]%string
      = Ok (pe, pooled) /\
    contiguous pe /\ contiguous pooled.
Proof.
  apply (encode_prompts_contiguous (toy_sd3 (Some "zero"%string) (Some 4%Z))
           ["a cat"; "hi"]%string (toy_clip 2 2) (toy_clip 3 3) (toy_t5 6)
           toy_tokenizer toy_tokenizer toy_tokenizer 2 2 3 3 6 4
           eq_refl eq_refl (toy_clip_contract 2 2) (toy_clip_contract 3 3)
           (toy_clip_outputs_contiguous 2 2) (toy_clip_outputs_contiguous 3 3)
           (toy_t5_contract 6) eq_refl).
  - lia.
  - discriminate.
  - lia.
Defined.

Lemma encode_prompts_padding_is_masked_witness :
  exists pe pooled,
    _encode_prompts (ieee_sd3 overflowing (Some "zero"%string) (Some 4%Z))
      ["a cat"; "hi"]%string = Ok (pe, pooled) /\
    get3 pe 1 (77 + 3) 1 = Some (S754_zero true) /\
    get3 pe 1 (77 + 3) 0 = Some S754_nan.
Proof.
  destruct (encode_prompts_padding_is_masked
              (ieee_sd3 overflowing (Some "zero"%string) (Some 4%Z))
              ["a cat"; "hi"]%string (ieee_clip 2 2) (ieee_clip 3 3)
              (ieee_t5 6 overflowing)
              toy_tokenizer toy_tokenizer toy_tokenizer 2 2 3 3 6 4
              eq_refl eq_refl (ieee_clip_contract 2 2) (ieee_clip_contract 3 3)
              (ieee_clip_outputs_contiguous 2 2) (ieee_clip_outputs_contiguous 3 3)
              (ieee_t5_contract 6 overflowing) eq_refl)
    as (pe & pooled & Hrun & Hmask).
  - lia.
  - discriminate.
  - lia.
  - reflexivity.
  - exists pe, pooled. split; [exact Hrun|]. split.
    + destruct (Hmask 1%nat "hi"%string 3%nat 1%nat eq_refl) as (x & Hx & Hv & _).
      * vm_compute. lia.
      * lia.
      * vm_compute in Hx. injection Hx as <-. exact Hv.
    + destruct (Hmask 1%nat "hi"%string 3%nat 0%nat eq_refl) as (x & Hx & Hv & _).
      * vm_compute. lia.
      * lia.
      * vm_compute in Hx. injection Hx as <-. exact Hv.
Defined.

Lemma encode_store_pipeline_shapes_witness :
  exists pe pooled stored out,
    _encode_prompts (toy_sd3 (Some "zero"%string) (Some 4%Z)) ["a cat"]%string
      = Ok (pe, pooled) /\
    _format_text_embedding (pe, pooled) = Ok stored /\
    convert_text_embed_for_pipeline stored = Ok out /\
    shape (pooled_prompt_embeds stored) = [5%nat] /\
    shape (prompt_embeds out) = [1; 1; 81; 6]%nat /\
    shape (pooled_prompt_embeds out) = [1; 5]%nat.
Proof.
  destruct (encode_store_pipeline_shapes (toy_sd3 (Some "zero"%string) (Some 4%Z))
              ["a cat"]%string (toy_clip 2 2) (toy_clip 3 3) (toy_t5 6)
              toy_tokenizer toy_tokenizer toy_tokenizer 2 2 3 3 6 4
              eq_refl eq_refl (toy_clip_contract 2 2) (toy_clip_contract 3 3)
              (toy_clip_outputs_contiguous 2 2) (toy_clip_outputs_contiguous 3 3)
              (toy_t5_contract 6) eq_refl)
    as (pe & pooled & stored & out & Hrun & Hst & Hout & _ & Hsp & Hpe & Hpo & _).
  - lia.
  - discriminate.
  - lia.
  - exists pe, pooled, stored, out. repeat (split; [assumption|]). exact Hpo.
Defined.

Lemma validated_prompt_embeds_length_bounded_witness :
  exists pe pooled,
    _encode_prompts (validated (toy_sd3 (Some "zero"%string) None)) ["a cat"; "hi"]%string
      = Ok (pe, pooled) /\
    shape pe = [2; 231; 6]%nat.
Proof.
  destruct (validated_prompt_embeds_length_bounded (toy_sd3 (Some "zero"%string) None)
              ["a cat"; "hi"]%string (toy_clip 2 2) (toy_clip 3 3) (toy_t5 6)
              toy_tokenizer toy_tokenizer toy_tokenizer 2 2 3 3 6
              eq_refl eq_refl (toy_clip_contract 2 2) (toy_clip_contract 3 3)
              (toy_clip_outputs_contiguous 2 2) (toy_clip_outputs_contiguous 3 3)
              (toy_t5_contract 6))
    as (pe & pooled & L & Hrun & Hshape & _ & Hnone).
  - lia.
  - discriminate.
  - reflexivity.
  - reflexivity.
  - intros n Hn. discriminate Hn.
  - exists pe, pooled. split; [exact Hrun|].
    rewrite Hshape, (Hnone eq_refl). reflexivity.
Defined.

Lemma clip_helper_repeats_sequence_only_witness :
  exists embeds pooled,
    _encode_sd3_prompt_with_clip (toy_clip 2 3) toy_tokenizer
      (PromptList ["a cat"; "hi"]%string) 2 77%Z = Ok (embeds, pooled) /\
    shape embeds = [4; 77; 3]%nat /\ shape pooled = [2; 2]%nat.
Proof.
  destruct (clip_helper_repeats_sequence_only (toy_clip 2 3) toy_tokenizer
              ["a cat"; "hi"]%string 2 2 3 (toy_clip_contract 2 3))
    as (embeds & pooled & Hrun & Hse & _ & Hsp).
  - discriminate.
  - lia.
  - exists embeds, pooled. split; [exact Hrun|]. split; [exact Hse | exact Hsp].
Defined.

Lemma t5_helper_mask_is_not_repeated_witness :
  _encode_sd3_prompt_with_t5 (toy_t5 6) toy_tokenizer
    (PromptList ["a cat"; "hi"]%string) 2 true (Some (Z.of_nat 4))
    = Raise RuntimeError.
Proof.
  refine (proj2 (t5_helper_mask_is_not_repeated (toy_t5 6) toy_tokenizer
                   ["a cat"; "hi"]%string 2 6 4 (toy_t5_contract 6) _ _ _) _ _).
  - lia.
  - lia.
  - discriminate.
  - lia.
  - simpl. lia.
Defined.

End EncoderLayout.
